(** * insights-results-aggregator: the message consumer and the router helpers

    A shallow embedding of [consumer/consumer.go] (package [consumer]) and of
    the parameter helpers of package [server]. The parts of the Go standard
    library they call ([strconv], [encoding/json]) are modelled next to
    them; the sarama client, the storage, [uuid.Parse] and the integer kind
    of [types.OrgID] are parameters. *)

From stdpp Require Import gmap strings list.
From Stdlib Require Import ZArith Lia Strings.Byte Strings.Ascii Strings.String
  Numbers.DecimalString Numbers.DecimalPos.

Open Scope Z_scope.

Set Warnings "-register-all".

(* ====================================================================== *)
(** * Go primitives *)
(* ====================================================================== *)

Module strconv.

(** The two [*NumError] causes of [strconv]. *)
Inductive NumError := ErrSyntax | ErrRange.

(** Value of a decimal digit, [None] for any other character. *)
Definition digit (c : ascii) : option Z :=
  let n := Z.of_N (N_of_ascii c) in
  if (48 <=? n) && (n <=? 57) then Some (n - 48) else None.

(** The digit loop of [ParseUint(s, 10, 64)]: the first character that is not
    a digit is a syntax error, the first step past [2^64 - 1] a range error. *)
Fixpoint parseUintLoop (s : string) (n : Z) : Z + NumError :=
  match s with
  | EmptyString => inl n
  | String c rest =>
      match digit c with
      | None => inr ErrSyntax
      | Some d =>
          let n1 := n * 10 + d in
          if 2 ^ 64 <=? n1 then inr ErrRange else parseUintLoop rest n1
      end
  end.

(** [strconv.ParseUint(s, 10, 64)]. *)
Definition ParseUint (s : string) : Z + NumError :=
  match s with
  | EmptyString => inr ErrSyntax
  | _ => parseUintLoop s 0
  end.

(** [strconv.ParseInt(s, 10, 64)]: an optional sign, then [ParseUint] on the
    rest, then the range check against [2^63]. *)
Definition ParseInt (s : string) : Z + NumError :=
  match s with
  | EmptyString => inr ErrSyntax
  | String c rest =>
      let neg := Ascii.eqb c "-" in
      let s1 := if Ascii.eqb c "+" || neg then rest else s in
      match ParseUint s1 with
      | inr ErrSyntax => inr ErrSyntax
      | inr ErrRange => inr ErrRange
      | inl un =>
          let cutoff := 2 ^ 63 in
          if negb neg && (cutoff <=? un) then inr ErrRange
          else if neg && (cutoff <? un) then inr ErrRange
          else inl (if neg then - un else un)
      end
  end.

(** [%d] / [%v] of an integer. *)
Definition FormatInt (z : Z) : string := NilZero.string_of_int (Z.to_int z).

End strconv.

(** A Go integer type: its signedness and width. *)
Record intKind := { signed : bool; bits : Z }.

(** [int64], [int] (as wide as [int64] on the 64-bit targets the service
    is built for) and [uint32]. *)
Definition kind_int64 : intKind := {| signed := true; bits := 64 |}.
Definition kind_int : intKind := {| signed := true; bits := 64 |}.
Definition kind_uint32 : intKind := {| signed := false; bits := 32 |}.

(** [v.OverflowInt(n)] / [v.OverflowUint(n)] negated: [n] is a value of the kind. *)
Definition fits (k : intKind) (n : Z) : bool :=
  if signed k then (- 2 ^ (bits k - 1) <=? n) && (n <? 2 ^ (bits k - 1))
  else (0 <=? n) && (n <? 2 ^ bits k).

(** Conversion [T(n)] between integer types: the low [bits] bits, read in the
    target's signedness. *)
Definition convert (k : intKind) (n : Z) : Z :=
  let m := n mod 2 ^ bits k in
  if signed k && (2 ^ (bits k - 1) <=? m) then m - 2 ^ bits k else m.

(** Numeric code of a byte. *)
Definition code (b : byte) : Z := Z.of_N (Byte.to_N b).

Definition between (lo hi : Z) (b : byte) : bool :=
  (lo <=? code b) && (code b <=? hi).

(* ====================================================================== *)
(** * encoding/json *)
(* ====================================================================== *)

Module utf8.

(** Continuation byte, [0x80..0xBF]. *)
Definition cont (b : byte) : bool := between 128 191 b.

(** The byte sequences [utf8.DecodeRune] accepts, by length. *)
Definition valid2 (b0 b1 : byte) : bool := between 194 223 b0 && cont b1.

Definition valid3 (b0 b1 b2 : byte) : bool :=
  ((between 224 224 b0 && between 160 191 b1)
   || (between 225 236 b0 && cont b1)
   || (between 237 237 b0 && between 128 159 b1)
   || (between 238 239 b0 && cont b1))
  && cont b2.

Definition valid4 (b0 b1 b2 b3 : byte) : bool :=
  ((between 240 240 b0 && between 144 191 b1)
   || (between 241 243 b0 && cont b1)
   || (between 244 244 b0 && between 128 143 b1))
  && cont b2 && cont b3.

Definition byte_of (n : Z) : byte :=
  match Byte.of_N (Z.to_N n) with Some b => b | None => x00 end.

(** [unicode.ReplacementChar], U+FFFD. *)
Definition RuneError : Z := 65533.

(** [utf8.EncodeRune]. *)
Definition EncodeRune (r : Z) : list byte :=
  if (r <? 0) || (1114111 <? r) || ((55296 <=? r) && (r <=? 57343)) then
    [xef; xbf; xbd]
  else if r <? 128 then [byte_of r]
  else if r <? 2048 then
    [byte_of (192 + r / 64); byte_of (128 + r mod 64)]
  else if r <? 65536 then
    [byte_of (224 + r / 4096); byte_of (128 + (r / 64) mod 64);
     byte_of (128 + r mod 64)]
  else
    [byte_of (240 + r / 262144); byte_of (128 + (r / 4096) mod 64);
     byte_of (128 + (r / 64) mod 64); byte_of (128 + r mod 64)].

End utf8.

Module json.

(** A JSON text as the decoder walks it. A number keeps its literal, an
    object its members in the order and with the repetitions of the text. *)
Inductive Value :=
| JNull
| JBool (b : bool)
| JNumber (lit : string)
| JString (s : string)
| JArray (elems : list Value)
| JObject (members : list (string * Value)).

(** [*json.SyntaxError] and [*json.UnmarshalTypeError]; the latter with the
    description of the JSON value and the name of the field it was meant for. *)
Inductive Error :=
| SyntaxError
| UnmarshalTypeError (value : string) (field : string).

(** ** Strings *)

Definition hexval (b : byte) : option Z :=
  if between 48 57 b then Some (code b - 48)
  else if between 97 102 b then Some (code b - 87)
  else if between 65 70 b then Some (code b - 55)
  else None.

(** [getu4] on the four characters after a backslash and a [u]. *)
Definition getu4 (h1 h2 h3 h4 : byte) : option Z :=
  match hexval h1, hexval h2, hexval h3, hexval h4 with
  | Some a, Some b, Some c, Some d => Some (((a * 16 + b) * 16 + c) * 16 + d)
  | _, _, _, _ => None
  end.

Definition IsSurrogate (r : Z) : bool := (55296 <=? r) && (r <? 57344).

(** [utf16.DecodeRune]. *)
Definition utf16_DecodeRune (r1 r2 : Z) : Z :=
  if (55296 <=? r1) && (r1 <? 56320) && (56320 <=? r2) && (r2 <? 57344)
  then (r1 - 55296) * 1024 + (r2 - 56320) + 65536
  else utf8.RuneError.

(** The low half of a surrogate pair, when the text goes on with a
    four-digit escape. *)
Definition nextu4 (s : list byte) : option Z :=
  match s with
  | "\"%byte :: "u"%byte :: g1 :: g2 :: g3 :: g4 :: _ => getu4 g1 g2 g3 g4
  | _ => None
  end.

(** [unquoteBytes] on the text between the quotes: escapes are replaced,
    and bytes that are not UTF-8 become U+FFFD. [None] where the scanner
    would already have refused the text. *)
Fixpoint unquote (s : list byte) : option (list byte) :=
  match s with
  | [] => Some []
  | c :: r =>
      if Byte.eqb c "\" then
        match r with
        | [] => None
        | e :: r1 =>
            match e with
            | x22 | "\"%byte | "/"%byte | "'"%byte => cons e <$> unquote r1
            | "b"%byte => cons x08 <$> unquote r1
            | "f"%byte => cons x0c <$> unquote r1
            | "n"%byte => cons x0a <$> unquote r1
            | "r"%byte => cons x0d <$> unquote r1
            | "t"%byte => cons x09 <$> unquote r1
            | "u"%byte =>
                match r1 with
                | h1 :: h2 :: h3 :: h4 :: r2 =>
                    match getu4 h1 h2 h3 h4 with
                    | None => None
                    | Some rr =>
                        if IsSurrogate rr then
                          match r2 with
                          | _ :: _ :: _ :: _ :: _ :: _ :: r3 =>
                              match nextu4 r2 with
                              | Some rr1 =>
                                  let dec := utf16_DecodeRune rr rr1 in
                                  if dec =? utf8.RuneError
                                  then app [xef; xbf; xbd] <$> unquote r2
                                  else app (utf8.EncodeRune dec) <$> unquote r3
                              | None => app [xef; xbf; xbd] <$> unquote r2
                              end
                          | _ => app [xef; xbf; xbd] <$> unquote r2
                          end
                        else app (utf8.EncodeRune rr) <$> unquote r2
                    end
                | _ => None
                end
            | _ => None
            end
        end
      else if Byte.eqb c x22 || (code c <? 32) then None
      else if code c <? 128 then cons c <$> unquote r
      else
        let replaced := app [xef; xbf; xbd] <$> unquote r in
        match r with
        | c1 :: r1 =>
            if utf8.valid2 c c1 then (fun t => c :: c1 :: t) <$> unquote r1
            else
              match r1 with
              | c2 :: r2 =>
                  if utf8.valid3 c c1 c2
                  then (fun t => c :: c1 :: c2 :: t) <$> unquote r2
                  else
                    match r2 with
                    | c3 :: r3 =>
                        if utf8.valid4 c c1 c2 c3
                        then (fun t => c :: c1 :: c2 :: c3 :: t) <$> unquote r3
                        else replaced
                    | [] => replaced
                    end
              | [] => replaced
              end
        | [] => replaced
        end
  end.

(** ** The scanner

    [encoding/json] reads a text one byte at a time: a step function and a
    stack of the arrays and objects that are open. Here each stack entry
    also carries what has been read of its array or object (latest first),
    and the steps inside a string, a literal or a number carry what has
    been read of it. *)

Inductive frame :=
| parseArrayValue (elems : list Value)
| parseObjectKey (members : list (string * Value))
| parseObjectColon (members : list (string * Value)) (key : string)
| parseObjectValue (members : list (string * Value)) (key : string)
| parseObjectNext (members : list (string * Value)).

Inductive numState :=
| stateNeg | state0 | state1 | stateDot | stateDot0
| stateE | stateESign | stateE0.

Inductive stepState :=
| stateBeginValue
| stateBeginValueOrEmpty
| stateBeginString
| stateBeginStringOrEmpty
| stateInString (raw : list byte)
| stateInStringEsc (raw : list byte)
| stateInStringEscU (seen : nat) (raw : list byte)
| stateLiteral (rest : list byte) (v : Value)
| stateNumber (st : numState) (lit : list byte)
| stateEndValue
| stateEndTop (v : Value).

Record scanner := { step : stepState; parseState : list frame }.

Definition isSpace (c : byte) : bool :=
  match c with
  | " "%byte | x09 | x0d | x0a => true
  | _ => false
  end.

Definition isDigit (c : byte) : bool := between 48 57 c.

(** A value is complete: it goes to the array or object that is open, or
    is the value of the text. *)
Definition valueDone (v : Value) (ps : list frame) : option scanner :=
  match ps with
  | [] => Some {| step := stateEndTop v; parseState := [] |}
  | parseArrayValue es :: ps' =>
      Some {| step := stateEndValue; parseState := parseArrayValue (v :: es) :: ps' |}
  | parseObjectKey ms :: ps' =>
      match v with
      | JString k =>
          Some {| step := stateEndValue; parseState := parseObjectColon ms k :: ps' |}
      | _ => None
      end
  | parseObjectValue ms k :: ps' =>
      Some {| step := stateEndValue; parseState := parseObjectNext ((k, v) :: ms) :: ps' |}
  | _ => None
  end.

(** [stateEndValue] and [stateEndTop]: what may follow a complete value. *)
Definition endValue (s : scanner) (c : byte) : option scanner :=
  match step s with
  | stateEndTop _ => if isSpace c then Some s else None
  | stateEndValue =>
      if isSpace c then Some s
      else
        match parseState s with
        | parseObjectColon ms k :: ps' =>
            if Byte.eqb c ":" then
              Some {| step := stateBeginValue; parseState := parseObjectValue ms k :: ps' |}
            else None
        | parseObjectNext ms :: ps' =>
            if Byte.eqb c "," then
              Some {| step := stateBeginString; parseState := parseObjectKey ms :: ps' |}
            else if Byte.eqb c "}" then valueDone (JObject (rev ms)) ps'
            else None
        | parseArrayValue es :: ps' =>
            if Byte.eqb c "," then
              Some {| step := stateBeginValue; parseState := parseArrayValue es :: ps' |}
            else if Byte.eqb c "]" then valueDone (JArray (rev es)) ps'
            else None
        | _ => None
        end
  | _ => None
  end.

(** The deepest nesting of arrays and objects the scanner accepts (Go 1.15
    and later). *)
Definition maxNestingDepth : Z := 10000.

(** [s.pushParseState]: one more array or object is open; with more than
    [maxNestingDepth] of them open the text is refused. *)
Definition pushParseState (newParseState : frame) (successState : stepState)
  (ps : list frame) : option scanner :=
  let ps' := newParseState :: ps in
  if Z.of_nat (List.length ps') <=? maxNestingDepth
  then Some {| step := successState; parseState := ps' |}
  else None.

(** [stateBeginValue] on a byte that is not a space. *)
Definition beginValue (c : byte) (ps : list frame) : option scanner :=
  match c with
  | "{"%byte => pushParseState (parseObjectKey []) stateBeginStringOrEmpty ps
  | "["%byte => pushParseState (parseArrayValue []) stateBeginValueOrEmpty ps
  | x22 => Some {| step := stateInString []; parseState := ps |}
  | "-"%byte => Some {| step := stateNumber stateNeg [c]; parseState := ps |}
  | "0"%byte => Some {| step := stateNumber state0 [c]; parseState := ps |}
  | "t"%byte => Some {| step := stateLiteral (list_byte_of_string "rue") (JBool true); parseState := ps |}
  | "f"%byte => Some {| step := stateLiteral (list_byte_of_string "alse") (JBool false); parseState := ps |}
  | "n"%byte => Some {| step := stateLiteral (list_byte_of_string "ull") JNull; parseState := ps |}
  | _ =>
      if between 49 57 c then Some {| step := stateNumber state1 [c]; parseState := ps |}
      else None
  end.

(** A number ends at the first byte that cannot continue it; that byte is
    then read as what follows a value. *)
Definition numberDone (lit : list byte) (ps : list frame) (c : byte) : option scanner :=
  s ← valueDone (JNumber (string_of_list_byte (rev lit))) ps; endValue s c.

Definition isExp (c : byte) : bool := Byte.eqb c "e" || Byte.eqb c "E".

Definition numberStep (st : numState) (lit : list byte) (ps : list frame) (c : byte)
  : option scanner :=
  let next st' := Some {| step := stateNumber st' (c :: lit); parseState := ps |} in
  match st with
  | stateNeg =>
      if Byte.eqb c "0" then next state0
      else if between 49 57 c then next state1 else None
  | state0 =>
      if Byte.eqb c "." then next stateDot
      else if isExp c then next stateE else numberDone lit ps c
  | state1 =>
      if isDigit c then next state1
      else if Byte.eqb c "." then next stateDot
      else if isExp c then next stateE else numberDone lit ps c
  | stateDot => if isDigit c then next stateDot0 else None
  | stateDot0 =>
      if isDigit c then next stateDot0
      else if isExp c then next stateE else numberDone lit ps c
  | stateE =>
      if Byte.eqb c "+" || Byte.eqb c "-" then next stateESign
      else if isDigit c then next stateE0 else None
  | stateESign => if isDigit c then next stateE0 else None
  | stateE0 => if isDigit c then next stateE0 else numberDone lit ps c
  end.

(** One step of the scanner; [None] is a syntax error. *)
Definition scanByte (s : scanner) (c : byte) : option scanner :=
  let ps := parseState s in
  match step s with
  | stateBeginValue => if isSpace c then Some s else beginValue c ps
  | stateBeginValueOrEmpty =>
      if isSpace c then Some s
      else if Byte.eqb c "]" then
        match ps with
        | parseArrayValue es :: ps' => valueDone (JArray (rev es)) ps'
        | _ => None
        end
      else beginValue c ps
  | stateBeginString =>
      if isSpace c then Some s
      else if Byte.eqb c x22 then Some {| step := stateInString []; parseState := ps |}
      else None
  | stateBeginStringOrEmpty =>
      if isSpace c then Some s
      else if Byte.eqb c "}" then
        match ps with
        | parseObjectKey ms :: ps' => valueDone (JObject (rev ms)) ps'
        | _ => None
        end
      else if Byte.eqb c x22 then Some {| step := stateInString []; parseState := ps |}
      else None
  | stateInString raw =>
      if Byte.eqb c x22 then
        t ← unquote (rev raw); valueDone (JString (string_of_list_byte t)) ps
      else if Byte.eqb c "\" then Some {| step := stateInStringEsc (c :: raw); parseState := ps |}
      else if code c <? 32 then None
      else Some {| step := stateInString (c :: raw); parseState := ps |}
  | stateInStringEsc raw =>
      match c with
      | "b"%byte | "f"%byte | "n"%byte | "r"%byte | "t"%byte
      | "\"%byte | "/"%byte | x22 =>
          Some {| step := stateInString (c :: raw); parseState := ps |}
      | "u"%byte => Some {| step := stateInStringEscU 0 (c :: raw); parseState := ps |}
      | _ => None
      end
  | stateInStringEscU seen raw =>
      match hexval c with
      | None => None
      | Some _ =>
          if (seen <? 3)%nat
          then Some {| step := stateInStringEscU (S seen) (c :: raw); parseState := ps |}
          else Some {| step := stateInString (c :: raw); parseState := ps |}
      end
  | stateLiteral rest v =>
      match rest with
      | [] => None
      | x :: rest' =>
          if Byte.eqb c x then
            match rest' with
            | [] => valueDone v ps
            | _ => Some {| step := stateLiteral rest' v; parseState := ps |}
            end
          else None
      end
  | stateNumber st lit => numberStep st lit ps c
  | stateEndValue | stateEndTop _ => endValue s c
  end.

Fixpoint scan (s : scanner) (data : list byte) : option scanner :=
  match data with
  | [] => Some s
  | c :: rest => s' ← scanByte s c; scan s' rest
  end.

(** [checkValid] together with the value the text denotes: the scanner is
    run over the whole text and then, as at the end of the input, over one
    space. *)
Definition parse (data : list byte) : option Value :=
  s ← scan {| step := stateBeginValue; parseState := [] |} data;
  s' ← scanByte s " ";
  match step s' with
  | stateEndTop v => Some v
  | _ => None
  end.

(** ** Matching an object key with a struct field

    The decoder looks for a field with exactly the key as its name and then
    for the first field whose name equals the key up to case. The choice
    between the comparison functions follows the field name ([foldFunc]):
    for a name of ASCII letters [simpleLetterEqualFold], and [equalFoldRight]
    when the name has a K or an S, since U+212A and U+017F fold to them. *)

Definition caseMask (b : byte) : Z := Z.land (code b) 223.

Fixpoint simpleLetterEqualFold (s t : list byte) : bool :=
  match s, t with
  | [], [] => true
  | b :: s', c :: t' => (caseMask b =? caseMask c) && simpleLetterEqualFold s' t'
  | _, _ => false
  end.

Fixpoint equalFoldRight (s t : list byte) : bool :=
  match s with
  | [] => match t with [] => true | _ => false end
  | sb :: s' =>
      match t with
      | [] => false
      | tb :: t' =>
          if code tb <? 128 then
            (Byte.eqb sb tb
             || ((65 <=? caseMask sb) && (caseMask sb <=? 90)
                 && (caseMask sb =? caseMask tb)))
            && equalFoldRight s' t'
          else
            match sb with
            | "s"%byte | "S"%byte =>
                match t with
                | xc5 :: xbf :: t2 => equalFoldRight s' t2
                | _ => false
                end
            | "k"%byte | "K"%byte =>
                match t with
                | xe2 :: x84 :: xaa :: t2 => equalFoldRight s' t2
                | _ => false
                end
            | _ => false
            end
      end
  end.

(** [foldFunc]: the comparison a field name is given. *)
Definition isSpecial (b : byte) : bool := (caseMask b =? 75) || (caseMask b =? 83).

Definition foldFunc (name : list byte) : list byte -> list byte -> bool :=
  if existsb isSpecial name then equalFoldRight else simpleLetterEqualFold.

Definition equalFold (name key : string) : bool :=
  foldFunc (list_byte_of_string name) (list_byte_of_string name) (list_byte_of_string key).

(** ** Storing a value *)

(** How [UnmarshalTypeError] describes a value that does not fit. *)
Definition describe (v : Value) : string :=
  match v with
  | JNull => "null"
  | JBool _ => "bool"
  | JNumber _ => "number"
  | JString _ => "string"
  | JArray _ => "array"
  | JObject _ => "object"
  end.

(** A number literal read at an integer kind: [ParseInt] or [ParseUint] on
    the literal, then the overflow check of the kind. *)
Definition numberToInt (k : intKind) (lit : string) : option Z :=
  match (if signed k then strconv.ParseInt lit else strconv.ParseUint lit) with
  | inl n => if fits k n then Some n else None
  | inr _ => None
  end.

(** A value decoded into a field of type pointer to integer. [null] sets
    the pointer to nil. For any other value the pointer is first made to
    point somewhere (to a zero when it was nil); an integer literal of the
    kind is then stored there, and anything else is a type error that leaves
    the pointee as it was. *)
Definition storeIntPtr (k : intKind) (field : string) (v : Value) (old : option Z)
  : option Z * option Error :=
  let cur := default 0 old in
  match v with
  | JNull => (None, None)
  | JNumber lit =>
      match numberToInt k lit with
      | Some n => (Some n, None)
      | None => (Some cur, Some (UnmarshalTypeError ("number " +:+ lit) field))
      end
  | _ => (Some cur, Some (UnmarshalTypeError (describe v) field))
  end.

(** The same for a field of type pointer to string. *)
Definition storeStringPtr (field : string) (v : Value) (old : option string)
  : option string * option Error :=
  let cur := default EmptyString old in
  match v with
  | JNull => (None, None)
  | JString s => (Some s, None)
  | _ => (Some cur, Some (UnmarshalTypeError (describe v) field))
  end.

(** [d.saveError]: the first error is the one kept. *)
Definition saveError (saved new : option Error) : option Error :=
  match saved with
  | Some e => Some e
  | None => new
  end.

End json.

(* ====================================================================== *)
(** * Package consumer *)
(* ====================================================================== *)

Module types.
Definition OrgID := Z.
Definition ClusterName := string.
Definition ClusterReport := string.
End types.

Module broker.
Record Configuration := { Address : string; Topic : string; Group : string }.
End broker.

Module consumer.

(** The values of Go's [error] that occur in the package: the errors of
    [json.Unmarshal], those made by [errors.New], and the errors the broker
    client and the storage hand back, which the package only passes on. *)
Inductive error :=
| jsonError (e : json.Error)
| errorString (s : string)
| foreignError (description : string).

(** [sarama.ConsumerMessage], with the two fields the package reads. *)
Record ConsumerMessage := { Offset : Z; Value : list byte }.

Definition OffsetNewest : Z := -1.

(** ** The decoder *)

Record incomingMessage := {
  Organization : option types.OrgID;
  ClusterName : option types.ClusterName;
  Report : option types.ClusterReport
}.

(** [var deserialized incomingMessage]: every pointer nil. *)
Definition zeroMessage : incomingMessage :=
  {| Organization := None; ClusterName := None; Report := None |}.

(** The fields of [incomingMessage], in the order of the declaration, and
    the key each is tagged with. *)
Inductive field := fOrganization | fClusterName | fReport.

#[global] Instance field_eq_dec : EqDecision field.
Proof. solve_decision. Defined.

Definition fieldKey (f : field) : string :=
  match f with
  | fOrganization => "OrgID"
  | fClusterName => "ClusterName"
  | fReport => "Report"
  end.

Definition fields : list field := [fOrganization; fClusterName; fReport].

(** The field an object key selects: one tagged with exactly the key, or
    else the first one whose tag equals the key up to case. *)
Definition matchField (key : string) : option field :=
  match List.find (fun f => String.eqb (fieldKey f) key) fields with
  | Some f => Some f
  | None => List.find (fun f => json.equalFold (fieldKey f) key) fields
  end.

Section Decoder.

(** The integer kind of [types.OrgID], which is declared outside these files. *)
Variable OrgIDKind : intKind.

(** One member of the object decoded into the struct: the field the key
    selects is stored, a key that selects none is skipped. *)
Definition decodeMember (st : incomingMessage * option json.Error)
  (member : string * json.Value) : incomingMessage * option json.Error :=
  let '(d, saved) := st in
  let '(key, v) := member in
  match matchField key with
  | Some fOrganization =>
      let '(p, e) := json.storeIntPtr OrgIDKind (fieldKey fOrganization) v (Organization d) in
      ({| Organization := p; ClusterName := ClusterName d; Report := Report d |},
       json.saveError saved e)
  | Some fClusterName =>
      let '(p, e) := json.storeStringPtr (fieldKey fClusterName) v (ClusterName d) in
      ({| Organization := Organization d; ClusterName := p; Report := Report d |},
       json.saveError saved e)
  | Some fReport =>
      let '(p, e) := json.storeStringPtr (fieldKey fReport) v (Report d) in
      ({| Organization := Organization d; ClusterName := ClusterName d; Report := p |},
       json.saveError saved e)
  | None => (d, saved)
  end.

(** A parsed text decoded into a zero [incomingMessage]: an object member
    by member, [null] with no effect, anything else a type error. *)
Definition decodeValue (v : json.Value) : incomingMessage * option json.Error :=
  match v with
  | json.JObject members => fold_left decodeMember members (zeroMessage, None)
  | json.JNull => (zeroMessage, None)
  | _ => (zeroMessage, Some (json.UnmarshalTypeError (json.describe v) ""))
  end.

(** [json.Unmarshal(messageValue, &deserialized)] on a zero [deserialized]. *)
Definition Unmarshal (data : list byte) : incomingMessage * option json.Error :=
  match json.parse data with
  | None => (zeroMessage, Some json.SyntaxError)
  | Some v => decodeValue v
  end.

Definition parseMessage (messageValue : list byte)
  : types.OrgID * types.ClusterName * types.ClusterReport * option error :=
  let '(deserialized, err) := Unmarshal messageValue in
  match err with
  | Some e => (0, EmptyString, EmptyString, Some (jsonError e))
  | None =>
      match Organization deserialized with
      | None => (0, EmptyString, EmptyString,
                 Some (errorString "Missing required attribute 'OrgID'"))
      | Some organization =>
          match ClusterName deserialized with
          | None => (0, EmptyString, EmptyString,
                     Some (errorString "Missing required attribute 'ClusterName'"))
          | Some clusterName =>
              match Report deserialized with
              | None => (0, EmptyString, EmptyString,
                         Some (errorString "Missing required attribute 'Report'"))
              | Some report => (organization, clusterName, report, None)
              end
          end
      end
  end.

End Decoder.

(** ** The world around the consumer *)

(** [storage.Storage], with the one method the package calls. A value of
    the interface is a handle; what has been stored is the state. *)
Class StorageModel := {
  storage_Storage : Type;
  storage_state : Type;
  WriteReportForCluster :
    storage_Storage -> types.OrgID -> types.ClusterName -> types.ClusterReport ->
    storage_state -> option error * storage_state
}.

(** What a receive on the channel of [Messages()] does: it takes the next
    message, or yields nil at once because the channel has been closed and
    is empty, or blocks for ever because nothing more is sent. *)
Inductive received (A : Type) :=
| message (msg : ConsumerMessage) (next : A)
| closedChannel
| nothing.
Arguments message {A} msg next.
Arguments closedChannel {A}.
Arguments nothing {A}.

(** The sarama client. A call with an error result hands back no value
    the package looks at, so a result is a value or an error.
    [cachedPartitions] is what the client finds for a topic in its
    metadata, refreshed when it holds none: the partitions, or the error
    of the client. *)
Class SaramaModel := {
  sarama_Consumer : Type;
  sarama_PartitionConsumer : Type;
  sarama_state : Type;
  NewConsumer : list string -> sarama_state -> (sarama_Consumer + error) * sarama_state;
  cachedPartitions :
    sarama_Consumer -> string -> sarama_state -> (list Z + error) * sarama_state;
  ConsumePartition :
    sarama_Consumer -> string -> Z -> Z -> sarama_state ->
    (sarama_PartitionConsumer + error) * sarama_state;
  Messages : sarama_PartitionConsumer -> sarama_state -> received sarama_state;
  PartitionConsumer_Close :
    sarama_PartitionConsumer -> sarama_state -> option error * sarama_state;
  Consumer_Close : sarama_Consumer -> sarama_state -> option error * sarama_state
}.

(** [sarama.ErrUnknownTopicOrPartition]. *)
Definition ErrUnknownTopicOrPartition : error :=
  foreignError
    "kafka server: Request was for a topic or partition that does not exist on this broker.".

(** [c.Partitions(topic)]: when no partition is found after the refresh of
    the metadata, the client answers with [ErrUnknownTopicOrPartition], so
    a list that comes without an error is never empty. *)
Definition Partitions {saramaModel : SaramaModel} (c : sarama_Consumer) (topic : string)
  (s : sarama_state) : (list Z + error) * sarama_state :=
  match cachedPartitions c topic s with
  | (inl [], s') => (inr ErrUnknownTopicOrPartition, s')
  | r => r
  end.

(** An operand of a [log] call. *)
Inductive logArg :=
| argInt (n : Z)
| argString (s : string)
| argError (e : option error).

Inductive panic :=
| nilDereference
| indexOutOfRange (index length : Z).

Inductive result (A : Type) :=
| ok (a : A)
| panics (p : panic).
Arguments ok {A} a.
Arguments panics {A} p.

Section Consumer.

Context {storageModel : StorageModel} {saramaModel : SaramaModel}.
Variable OrgIDKind : intKind.

(** What the package does to its surroundings, in order: the lines it logs
    and the calls it makes. *)
Inductive event :=
| log_Printf (format : string) (args : list logArg)
| log_Println (args : list logArg)
| call_WriteReportForCluster (storage : storage_Storage)
    (orgID : types.OrgID) (clusterName : types.ClusterName) (report : types.ClusterReport)
| call_NewConsumer (addrs : list string)
| call_Partitions (c : sarama_Consumer) (topic : string)
| call_ConsumePartition (c : sarama_Consumer) (topic : string) (partition offset : Z)
| call_PartitionConsumer_Close (pc : sarama_PartitionConsumer)
| call_Consumer_Close (c : sarama_Consumer).

Record world := {
  db : storage_state;
  net : sarama_state;
  trace : list event
}.

Definition M (A : Type) : Type := world -> result A * world.

#[local] Instance M_ret : MRet M := fun A a w => (ok a, w).

#[local] Instance M_bind : MBind M := fun A B f m w =>
  match m w with
  | (ok a, w') => f a w'
  | (panics p, w') => (panics p, w')
  end.

Definition emit (e : event) : M unit := fun w =>
  (ok tt, {| db := db w; net := net w; trace := trace w ++ [e] |}).

Definition panicWith {A : Type} (p : panic) : M A := fun w => (panics p, w).

(** A call of the storage or of the client: it is recorded, then made. *)
Definition onStorage {A : Type} (e : event) (f : storage_state -> A * storage_state) : M A :=
  fun w =>
    let '(a, s) := f (db w) in
    (ok a, {| db := s; net := net w; trace := trace w ++ [e] |}).

Definition onSarama {A : Type} (e : event) (f : sarama_state -> A * sarama_state) : M A :=
  fun w =>
    let '(a, s) := f (net w) in
    (ok a, {| db := db w; net := s; trace := trace w ++ [e] |}).

Record Impl := {
  Configuration : broker.Configuration;
  Consumer : sarama_Consumer;
  PartitionConsumer : sarama_PartitionConsumer;
  Storage : storage_Storage
}.

(** [New] hands back [(nil, err)] or [(consumer, nil)]. *)
Definition New (brokerCfg : broker.Configuration) (storage : storage_Storage)
  : M (option Impl * option error) :=
  r ← onSarama (call_NewConsumer [broker.Address brokerCfg])
        (NewConsumer [broker.Address brokerCfg]);
  match r with
  | inr err => mret (None, Some err)
  | inl c =>
      r ← onSarama (call_Partitions c (broker.Topic brokerCfg))
            (Partitions c (broker.Topic brokerCfg));
      match r with
      | inr err => mret (None, Some err)
      | inl partitions =>
          p0 ← match partitions with
               | [] => panicWith (indexOutOfRange 0 0)
               | p :: _ => mret p
               end;
          r ← onSarama (call_ConsumePartition c (broker.Topic brokerCfg) p0 OffsetNewest)
                (ConsumePartition c (broker.Topic brokerCfg) p0 OffsetNewest);
          match r with
          | inr err => mret (None, Some err)
          | inl partitionConsumer =>
              mret (Some {| Configuration := brokerCfg;
                            Consumer := c;
                            PartitionConsumer := partitionConsumer;
                            Storage := storage |}, None)
          end
      end
  end.

(** [ProcessMessage]; [msg] is a pointer, [None] the nil pointer. *)
Definition ProcessMessage (consumer : Impl) (msg : option ConsumerMessage)
  : M (option error) :=
  m ← match msg with
      | None => panicWith nilDereference
      | Some m => mret m
      end;
  _ ← emit (log_Printf "Consumed message offset %d\n" [argInt (Offset m)]);
  let '(orgID, clusterName, report, err) := parseMessage OrgIDKind (Value m) in
  _ ← emit (log_Println [argInt orgID; argString clusterName; argString report; argError err]);
  match err with
  | Some e =>
      _ ← emit (log_Println [argString "Error parsing message from Kafka:"; argError err]);
      mret (Some e)
  | None =>
      err ← onStorage (call_WriteReportForCluster (Storage consumer) orgID clusterName report)
              (WriteReportForCluster (Storage consumer) orgID clusterName report);
      match err with
      | Some e =>
          _ ← emit (log_Println [argString "Error writing report to database:"; argError err]);
          mret (Some e)
      | None => mret None
      end
  end.

(** [Close]. *)
Definition Close (consumer : Impl) : M (option error) :=
  err ← onSarama (call_PartitionConsumer_Close (PartitionConsumer consumer))
          (PartitionConsumer_Close (PartitionConsumer consumer));
  match err with
  | Some e => mret (Some e)
  | None =>
      onSarama (call_Consumer_Close (Consumer consumer)) (Consumer_Close (Consumer consumer))
  end.

(** ** The loop of [Start]

    [Start] is followed for a number of iterations. After them it is still
    in the loop ([running]), or it blocks in the receive for ever
    ([waiting]), or it has panicked ([crashed]); [returned] is the status
    of a [Start] that has handed back its result. Each status but the
    last carries the counter [consumed]. *)
Inductive status :=
| running (consumed : Z)
| waiting (consumed : Z)
| crashed (p : panic)
| returned (err : option error).

(** [msg := <-consumer.PartitionConsumer.Messages()], when it does not block. *)
Definition receive (consumer : Impl) (w : world) : option (option ConsumerMessage * world) :=
  match Messages (PartitionConsumer consumer) (net w) with
  | message msg next => Some (Some msg, {| db := db w; net := next; trace := trace w |})
  | closedChannel => Some (None, w)
  | nothing => None
  end.

(** The body of the loop after the receive, up to [consumed++]. *)
Definition iteration (consumer : Impl) (msg : option ConsumerMessage) : M unit :=
  err ← ProcessMessage consumer msg;
  match err with
  | Some e =>
      emit (log_Println [argString "Error processing message consumed from Kafka:";
                         argError err])
  | None => mret tt
  end.

Fixpoint loop (n : nat) (consumer : Impl) (consumed : Z) (w : world) : status * world :=
  match n with
  | O => (running consumed, w)
  | S n' =>
      match receive consumer w with
      | None => (waiting consumed, w)
      | Some (msg, w1) =>
          match iteration consumer msg w1 with
          | (panics p, w2) => (crashed p, w2)
          | (ok _, w2) => loop n' consumer (convert kind_int (consumed + 1)) w2
          end
      end
  end.

Definition Start (n : nat) (consumer : Impl) : world -> status * world :=
  fun w =>
    match emit (log_Printf "Consumer has been started, waiting for messages send to topic %s\n"
                  [argString (broker.Topic (Configuration consumer))]) w with
    | (_, w0) => loop n consumer 0 w0
    end.

(** The writes a trace asks of the storage. *)
Definition storageCalls (t : list event)
  : list (types.OrgID * types.ClusterName * types.ClusterReport) :=
  omap (fun e =>
          match e with
          | call_WriteReportForCluster _ o c r => Some (o, c, r)
          | _ => None
          end) t.

End Consumer.

Arguments New {_ _} brokerCfg storage w.
Arguments ProcessMessage {_ _} OrgIDKind consumer msg w.
Arguments Close {_ _} consumer w.
Arguments Start {_ _} OrgIDKind n consumer w.
Arguments loop {_ _} OrgIDKind n consumer consumed w.
Arguments iteration {_ _} OrgIDKind consumer msg w.
Arguments storageCalls {_ _} t.

(** ** Two small worlds to run the package in *)

(** A storage that answers every write with the result its handle names,
    and keeps what it accepted. *)
Definition fixedStorage : StorageModel := {|
  storage_Storage := option error;
  storage_state := list (types.OrgID * types.ClusterName * types.ClusterReport);
  WriteReportForCluster h o c r st :=
    match h with
    | Some e => (Some e, st)
    | None => (None, st ++ [(o, c, r)])
    end
|}.

(** A client whose behaviour is written down beforehand. *)
Record script := {
  partitionsOfTopic : list Z + error;
  pending : list ConsumerMessage;
  channelClosed : bool;
  closePartitionConsumer : option error;
  closeConsumer : option error
}.

Definition scriptedSarama : SaramaModel := {|
  sarama_Consumer := unit;
  sarama_PartitionConsumer := unit;
  sarama_state := script;
  NewConsumer _ s := (inl tt, s);
  cachedPartitions _ _ s := (partitionsOfTopic s, s);
  ConsumePartition _ _ _ _ s := (inl tt, s);
  Messages _ s :=
    match pending s with
    | m :: rest =>
        message m {| partitionsOfTopic := partitionsOfTopic s;
                     pending := rest;
                     channelClosed := channelClosed s;
                     closePartitionConsumer := closePartitionConsumer s;
                     closeConsumer := closeConsumer s |}
    | [] => if channelClosed s then closedChannel else nothing
    end;
  PartitionConsumer_Close _ s := (closePartitionConsumer s, s);
  Consumer_Close _ s := (closeConsumer s, s)
|}.

(** A JSON text written with apostrophes where the text has quotes. *)
Definition jsonText (s : string) : list byte :=
  map (fun b => if Byte.eqb b "'" then x22 else b) (list_byte_of_string s).

(** The message [produceMessages] of the aggregator sends. *)
Definition testMessage : list byte := jsonText "
{'OrgID':1,
 'ClusterName':'aaaaaaaa-bbbb-cccc-dddd-000000000000',
 'Report':'{}'}
".

Definition testCfg : broker.Configuration :=
  {| broker.Address := "localhost:9092"; broker.Topic := "ccx.ocp.results";
     broker.Group := "aggregator" |}.

Definition testScript : script :=
  {| partitionsOfTopic := inl [0]; pending := []; channelClosed := false;
     closePartitionConsumer := None; closeConsumer := None |}.

(** A topic for which the client finds no partition. *)
Definition topicWithoutPartitions : script :=
  {| partitionsOfTopic := inl []; pending := []; channelClosed := false;
     closePartitionConsumer := None; closeConsumer := None |}.

(** The message of [produceMessages], and nothing after it. *)
Definition oneGoodMessage : script :=
  {| partitionsOfTopic := inl [0];
     pending := [{| Offset := 7; Value := testMessage |}];
     channelClosed := false; closePartitionConsumer := None; closeConsumer := None |}.

(** One message without ClusterName, and nothing after it. *)
Definition oneBadMessage : script :=
  {| partitionsOfTopic := inl [0];
     pending := [{| Offset := 8; Value := jsonText "{'OrgID':1}" |}];
     channelClosed := false; closePartitionConsumer := None; closeConsumer := None |}.

(** A subscription whose channel has been closed. *)
Definition closedSubscription : script :=
  {| partitionsOfTopic := inl [0]; pending := []; channelClosed := true;
     closePartitionConsumer := None; closeConsumer := None |}.

(** A topic the client does not know. *)
Definition unknownTopic : script :=
  {| partitionsOfTopic := inr (foreignError "kafka server: unknown topic or partition");
     pending := []; channelClosed := false;
     closePartitionConsumer := None; closeConsumer := None |}.

(** A subscription that cannot be closed. *)
Definition failingSubscriptionClose : script :=
  {| partitionsOfTopic := inl [0]; pending := []; channelClosed := false;
     closePartitionConsumer := Some (foreignError "broker gone");
     closeConsumer := None |}.

Definition testWorld (s : script) : @world fixedStorage scriptedSarama :=
  @Build_world fixedStorage scriptedSarama [] s [].

Definition testConsumer (storage : option error) : @Impl fixedStorage scriptedSarama :=
  @Build_Impl fixedStorage scriptedSarama testCfg tt tt storage.

(** ** Notions the properties of the decoder are stated with *)

Definition field_eqb (f g : field) : bool :=
  match f, g with
  | fOrganization, fOrganization | fClusterName, fClusterName | fReport, fReport => true
  | _, _ => false
  end.

(** The key of the member selects the field. *)
Definition selects (f : field) (member : string * json.Value) : bool :=
  match matchField (fst member) with
  | Some g => field_eqb f g
  | None => false
  end.

(** The values an object binds to the key of a field, in the order of the
    text; none when the key is absent. *)
Definition bound (f : field) (members : list (string * json.Value)) : list json.Value :=
  map snd (List.filter (selects f) members).

(** The object with the key of a field taken out. *)
Definition without (f : field) (members : list (string * json.Value))
  : list (string * json.Value) :=
  List.filter (fun m => negb (selects f m)) members.

Definition isNull (v : json.Value) : bool :=
  match v with
  | json.JNull => true
  | _ => false
  end.

(** The value is of the type of the field: an integer literal of the kind
    of [types.OrgID] for [OrgID], a string for the other two. *)
Definition hasFieldType (k : intKind) (f : field) (v : json.Value) : bool :=
  match f, v with
  | fOrganization, json.JNumber lit =>
      match json.numberToInt k lit with
      | Some _ => true
      | None => false
      end
  | fClusterName, json.JString _ | fReport, json.JString _ => true
  | _, _ => false
  end.

(** A member that binds the key of a field to a value that is neither null
    nor of the type of the field. *)
Definition illTyped (k : intKind) (member : string * json.Value) : bool :=
  match matchField (fst member) with
  | Some f => negb (isNull (snd member) || hasFieldType k f (snd member))
  | None => false
  end.

(** The error a member adds to the saved one; it does not depend on what
    has been decoded before the member. *)
Definition typeError (k : intKind) (member : string * json.Value) : option json.Error :=
  match matchField (fst member) with
  | Some fOrganization =>
      snd (json.storeIntPtr k (fieldKey fOrganization) (snd member) None)
  | Some fClusterName =>
      snd (json.storeStringPtr (fieldKey fClusterName) (snd member) None)
  | Some fReport => snd (json.storeStringPtr (fieldKey fReport) (snd member) None)
  | None => None
  end.

(** A payload [json.Unmarshal] cannot decode into the struct: bytes that
    are no JSON text, a text that is neither an object nor null, or an
    object with an ill-typed member. *)
Definition malformed (k : intKind) (data : list byte) : bool :=
  match json.parse data with
  | None => true
  | Some (json.JObject members) => existsb (illTyped k) members
  | Some json.JNull => false
  | Some _ => true
  end.

(** The fields that are nil after decoding, in the order of the struct. *)
Definition isSet (d : incomingMessage) (f : field) : bool :=
  match f with
  | fOrganization => bool_decide (is_Some (Organization d))
  | fClusterName => bool_decide (is_Some (ClusterName d))
  | fReport => bool_decide (is_Some (Report d))
  end.

Definition missingFields (d : incomingMessage) : list field :=
  List.filter (fun f => negb (isSet d f)) fields.

(** The validation error that names a field. *)
Definition missingAttribute (f : field) : error :=
  errorString ("Missing required attribute '" +:+ fieldKey f +:+ "'").

(** What [parseMessage] hands back with an error. *)
Definition failure (e : error)
  : types.OrgID * types.ClusterName * types.ClusterReport * option error :=
  (0, EmptyString, EmptyString, Some e).

End consumer.

(* ====================================================================== *)
(** * Package server: the router parameters *)
(* ====================================================================== *)

Module server.

(** The values stored in a [paramValue interface{}]. *)
Inductive any :=
| anyString (s : string)
| anyInt64 (n : Z).

(** [%v] of such a value. *)
Definition formatAny (v : any) : string :=
  match v with
  | anyString s => s
  | anyInt64 n => strconv.FormatInt n
  end.

(** The values of Go's [error] that occur in these functions: the two
    router errors and the errors made by [errors.New]. *)
Inductive error :=
| RouterMissingParamError (paramName : string)
| RouterParsingError (paramName : string) (paramValue : any) (errString : string)
| errorString (s : string).

(** The [Error()] method of each. *)
Definition Error (e : error) : string :=
  match e with
  | RouterMissingParamError paramName => "missing param " +:+ paramName
  | RouterParsingError paramName paramValue errString =>
      "Error during parsing param " +:+ paramName +:+ " with value "
      +:+ formatAny paramValue +:+ ". Error: " +:+ errString
  | errorString s => s
  end.

Definition StatusBadRequest : Z := 400.
Definition StatusInternalServerError : Z := 500.

(** What a handler does besides returning: the lines it logs and the
    responses it sends through the writer. *)
Inductive event :=
| log_Println (line : string)
| responses_Send (statusCode : Z) (data : string).

(** [responses.SendInternalServerError(writer, message)]. *)
Definition SendInternalServerError (message : string) : event :=
  responses_Send StatusInternalServerError message.

(** A request is read through [mux.Vars(request)] only, so it is given as
    its route variables. *)
Definition GetRouterParam (request : gmap string string) (paramName : string)
  : string * option error :=
  match request !! paramName with
  | None => (EmptyString, Some (RouterMissingParamError paramName))
  | Some value => (value, None)
  end.

Definition GetRouterIntParam (request : gmap string string) (paramName : string)
  : Z * option error :=
  let '(value, err) := GetRouterParam request paramName in
  match err with
  | Some e => (0, Some e)
  | None =>
      match strconv.ParseInt value with
      | inr _ =>
          (0, Some (RouterParsingError paramName (anyString value) "integer expected"))
      | inl intValue => (intValue, None)
      end
  end.

Definition GetRouterPositiveIntParam (request : gmap string string) (paramName : string)
  : Z * option error :=
  let '(value, err) := GetRouterIntParam request paramName in
  match err with
  | Some e => (0, Some e)
  | None =>
      if value <=? 0 then
        (0, Some (RouterParsingError paramName (anyInt64 value) "positive integer expected"))
      else (value, None)
  end.

(** The error is a [*RouterParsingError]. *)
Definition isParsingError (e : error) : bool :=
  match e with
  | RouterParsingError _ _ _ => true
  | _ => false
  end.

Section Handlers.

(** [uuid.Parse] of github.com/google/uuid, as far as the handler looks at
    it: whether the string is accepted. *)
Variable uuid_Parse : string -> bool.

(** The integer kind of [types.OrgID]. *)
Variable OrgIDKind : intKind.

Definition readClusterName (request : gmap string string)
  : (types.ClusterName * option error) * list event :=
  match request !! "cluster" with
  | None =>
      let message := "Cluster name is not provided" in
      ((EmptyString, Some (errorString message)),
       [log_Println message; SendInternalServerError message])
  | Some clusterName =>
      if uuid_Parse clusterName then ((clusterName, None), [])
      else
        let message := "Cluster name format is invalid" in
        ((EmptyString, Some (errorString message)),
         [log_Println message; SendInternalServerError message])
  end.

Definition readOrganizationID (request : gmap string string)
  : (types.OrgID * option error) * list event :=
  let '(organizationID, err) := GetRouterPositiveIntParam request "organization" in
  match err with
  | Some e =>
      let message := "Error getting organization ID from request " +:+ Error e in
      ((0, Some (errorString message)),
       [log_Println message;
        match e with
        | RouterParsingError _ _ _ => responses_Send StatusBadRequest (Error e)
        | _ => responses_Send StatusInternalServerError (Error e)
        end])
  | None => ((convert OrgIDKind (convert kind_int organizationID), None), [])
  end.

End Handlers.

(** A validator for the examples: the form of eight, four, four, four and
    twelve hexadecimal digits with hyphens between the groups. *)
Definition isHex (c : ascii) : bool :=
  let n := Z.of_N (N_of_ascii c) in
  ((48 <=? n) && (n <=? 57)) || ((97 <=? n) && (n <=? 102)) || ((65 <=? n) && (n <=? 70)).

Definition hyphenatedHex (s : string) : bool :=
  let cs := list_ascii_of_string s in
  (List.length cs =? 36)%nat
  && forallb (fun '(i, c) =>
       if (i =? 8)%nat || (i =? 13)%nat || (i =? 18)%nat || (i =? 23)%nat
       then Ascii.eqb c "-" else isHex c) (imap pair cs).

End server.

(* ====================================================================== *)
(** * Further notions of package consumer *)
(* ====================================================================== *)

(** What a message asks of the storage: the three values when
    [parseMessage] hands them back without an error. *)
Definition accepted (k : intKind) (msg : consumer.ConsumerMessage)
  : option (types.OrgID * types.ClusterName * types.ClusterReport) :=
  match consumer.parseMessage k (consumer.Value msg) with
  | (orgID, clusterName, report, None) => Some (orgID, clusterName, report)
  | (_, _, _, Some _) => None
  end.



(** The messages the first [n] receives on the channel of a partition
    consumer take, up to the first receive that blocks or finds the
    channel closed. *)
Fixpoint delivered {saramaModel : consumer.SaramaModel} (n : nat)
  (pc : consumer.sarama_PartitionConsumer) (s : consumer.sarama_state)
  : list consumer.ConsumerMessage :=
  match n with
  | O => []
  | S n' =>
      match consumer.Messages pc s with
      | consumer.message msg next => msg :: delivered n' pc next
      | _ => []
      end
  end.

(** The event is a close of the client or of a subscription. *)
Definition isClose {storageModel : consumer.StorageModel}
  {saramaModel : consumer.SaramaModel} (e : consumer.event) : bool :=
  match e with
  | consumer.call_PartitionConsumer_Close _ | consumer.call_Consumer_Close _ => true
  | _ => false
  end.

(* ====================================================================== *)
(** * Package main: the aggregator *)
(* ====================================================================== *)

Module aggregator.

Definition ExitStatusOK : Z := 0.
Definition ExitStatusNoCommand : Z := 1.
Definition ExitStatusProducerError : Z := 2.
Definition ExitStatusConsumerError : Z := 3.
Definition ExitStatusServerError : Z := 4.

(** ** [path/filepath] and [strings], on Unix

    A Go string is indexed by position, so the functions work on the list
    of the characters of the string. *)

Definition IsPathSeparator (c : ascii) : bool := Ascii.eqb c "/".

(** The loop of [filepath.Split], which walks down from the end while the
    character is no separator; [i] is one more than the index of Go. *)
Fixpoint splitIndex (path : list ascii) (i : nat) : nat :=
  match i with
  | O => O
  | S j =>
      match path !! j with
      | Some c => if IsPathSeparator c then S j else splitIndex path j
      | None => splitIndex path j
      end
  end.

(** [filepath.Split]: [path[:i+1], path[i+1:]]. *)
Definition Split (path : string) : string * string :=
  let p := list_ascii_of_string path in
  let i := splitIndex p (List.length p) in
  (string_of_list_ascii (take i p), string_of_list_ascii (drop i p)).

(** The loop of [filepath.Ext]: the index of the last dot of the last
    element of the path, when it has one. *)
Fixpoint extIndex (path : list ascii) (i : nat) : option nat :=
  match i with
  | O => None
  | S j =>
      match path !! j with
      | Some c =>
          if IsPathSeparator c then None
          else if Ascii.eqb c "." then Some j
          else extIndex path j
      | None => extIndex path j
      end
  end.

(** [filepath.Ext]: [path[i:]] or the empty string. *)
Definition Ext (path : string) : string :=
  let p := list_ascii_of_string path in
  match extIndex p (List.length p) with
  | Some i => string_of_list_ascii (drop i p)
  | None => EmptyString
  end.

(** [strings.HasSuffix] and [strings.TrimSuffix]. *)
Definition HasSuffix (s suffix : string) : bool :=
  (String.length suffix <=? String.length s)%nat
  && String.eqb
       (string_of_list_ascii
          (drop (String.length s - String.length suffix) (list_ascii_of_string s)))
       suffix.

Definition TrimSuffix (s suffix : string) : string :=
  if HasSuffix s suffix
  then string_of_list_ascii
         (take (String.length s - String.length suffix) (list_ascii_of_string s))
  else s.

(** No separator among the characters. *)
Definition separatorFree (p : list ascii) : Prop :=
  Forall (fun c => IsPathSeparator c = false) p.

(** A directory part: empty, or ending in a separator. *)
Definition directoryLike (p : list ascii) : Prop :=
  p = [] \/ exists q c, p = q ++ [c] /\ IsPathSeparator c = true.

(** No separator and no dot among the characters. *)
Definition extensionFree (p : list ascii) : Prop :=
  Forall (fun c => IsPathSeparator c = false /\ c <> "."%char) p.

(** ** The surroundings of the program *)

(** [storage.Configuration] and [server.Configuration]. *)
Record StorageConfiguration := { Driver : string; DataSource : string }.
Record ServerConfiguration := { Address : string; APIPrefix : string }.

(** The calls that tell viper where the configuration is. *)
Inductive viperCall :=
| SetConfigName (name : string)
| AddConfigPath (path : string).

(** What the program does not hold itself: the environment of the process,
    the configuration viper finds after the calls made so far (its tables,
    with the strings [GetString] gives for their entries), the producer,
    the opening and closing of the storage, and the HTTP server. A server
    that is started hands back an error or serves for ever ([None]). *)
Class MainModel {storageModel : consumer.StorageModel}
  {saramaModel : consumer.SaramaModel} := {
  LookupEnv : string -> option string;
  ReadInConfig : list viperCall -> gmap string (gmap string string) + consumer.error;
  ProduceMessage :
    broker.Configuration -> string -> consumer.sarama_state ->
    option consumer.error * consumer.sarama_state;
  storage_New :
    StorageConfiguration -> consumer.storage_state ->
    (consumer.storage_Storage + consumer.error) * consumer.storage_state;
  storage_Close : consumer.storage_Storage -> consumer.storage_state -> consumer.storage_state;
  server_HTTPServer : Type;
  server_New : ServerConfiguration -> consumer.storage_Storage -> server_HTTPServer;
  server_Start :
    server_HTTPServer -> consumer.storage_state ->
    option (option consumer.error) * consumer.storage_state
}.

Section Main.

Context {storageModel : consumer.StorageModel} {saramaModel : consumer.SaramaModel}
  {mainModel : MainModel}.

(** The integer kind of [types.OrgID]. *)
Variable OrgIDKind : intKind.

(** What the package does, in order. *)
Inductive mainEvent :=
| log_Fatal (err : consumer.error)
| fmt_Println (line : string)
| call_ReadInConfig
| call_ProduceMessage (brokerCfg : broker.Configuration) (message : string)
| call_storage_New (storageCfg : StorageConfiguration)
| call_storage_Close (storage : consumer.storage_Storage)
| call_consumer_New (brokerCfg : broker.Configuration) (storage : consumer.storage_Storage)
| call_consumer_Start (consumerInstance : consumer.Impl)
| call_consumer_Close (consumerInstance : consumer.Impl)
| call_server_New (serverCfg : ServerConfiguration) (storage : consumer.storage_Storage)
| call_server_Start.

(** The state of the process: the world of the consumer, what viper has
    been told and has read, and what has happened. *)
Record process := {
  surroundings : consumer.world;
  viperCalls : list viperCall;
  config : gmap string (gmap string string);
  events : list mainEvent
}.

(** A value of a panic: that of the runtime, or the error [panic] is
    called with (with the format it is wrapped in). *)
Inductive cause :=
| runtimePanic (p : consumer.panic)
| panicValue (format : string) (err : consumer.error).

(** How a function ends: it returns, or the process exits ([os.Exit]), or
    it panics, or it has not ended after the iterations [Start] is
    followed for. *)
Inductive ending (A : Type) :=
| returns (a : A)
| exits (code : Z)
| panicking (c : cause)
| stillRunning.
Arguments returns {A} a.
Arguments exits {A} code.
Arguments panicking {A} c.
Arguments stillRunning {A}.

Definition P (A : Type) : Type := process -> ending A * process.

#[local] Instance P_ret : MRet P := fun A a s => (returns a, s).

#[local] Instance P_bind : MBind P := fun A B f m s =>
  match m s with
  | (returns a, s') => f a s'
  | (exits code, s') => (exits code, s')
  | (panicking c, s') => (panicking c, s')
  | (stillRunning, s') => (stillRunning, s')
  end.

Definition note (e : mainEvent) : P unit := fun s =>
  (returns tt,
   {| surroundings := surroundings s; viperCalls := viperCalls s;
      config := config s; events := events s ++ [e] |}).

Definition panic {A : Type} (c : cause) : P A := fun s => (panicking c, s).

(** [os.Exit(code)]: the process ends at once; deferred calls do not run. *)
Definition os_Exit {A : Type} (code : Z) : P A := fun s => (exits code, s).

(** [log.Fatal(err)]: the error is printed, then [os.Exit(1)]. *)
Definition Fatal (err : consumer.error) : P unit :=
  _ ← note (log_Fatal err); os_Exit 1.

(** [defer d] before [body]: [d] runs when [body] returns and when it
    panics, and not when the process exits or is still running. The result
    of [d] is dropped. *)
Definition deferring {A : Type} (d : P unit) (body : P A) : P A := fun s =>
  match body s with
  | (returns a, s') =>
      match d s' with
      | (returns _, s'') => (returns a, s'')
      | (exits code, s'') => (exits code, s'')
      | (panicking c, s'') => (panicking c, s'')
      | (stillRunning, s'') => (stillRunning, s'')
      end
  | (panicking c, s') =>
      match d s' with
      | (returns _, s'') => (panicking c, s'')
      | (exits code, s'') => (exits code, s'')
      | (panicking c', s'') => (panicking c', s'')
      | (stillRunning, s'') => (stillRunning, s'')
      end
  | (exits code, s') => (exits code, s')
  | (stillRunning, s') => (stillRunning, s')
  end.

Definition withSurroundings (s : process) (w : consumer.world) : process :=
  {| surroundings := w; viperCalls := viperCalls s; config := config s;
     events := events s |}.

(** A function of package consumer, run in the world of the process. *)
Definition inConsumer {A : Type} (m : consumer.M A) : P A := fun s =>
  match m (surroundings s) with
  | (consumer.ok a, w) => (returns a, withSurroundings s w)
  | (consumer.panics p, w) => (panicking (runtimePanic p), withSurroundings s w)
  end.

(** A call that works on the storage, and one that works on the broker. *)
Definition onStorage {A : Type} (e : mainEvent)
  (f : consumer.storage_state -> A * consumer.storage_state) : P A := fun s =>
  let w := surroundings s in
  let '(a, db') := f (consumer.db w) in
  (returns a,
   {| surroundings := {| consumer.db := db'; consumer.net := consumer.net w;
                         consumer.trace := consumer.trace w |};
      viperCalls := viperCalls s; config := config s; events := events s ++ [e] |}).

Definition onBroker {A : Type} (e : mainEvent)
  (f : consumer.sarama_state -> A * consumer.sarama_state) : P A := fun s =>
  let w := surroundings s in
  let '(a, net') := f (consumer.net w) in
  (returns a,
   {| surroundings := {| consumer.db := consumer.db w; consumer.net := net';
                         consumer.trace := consumer.trace w |};
      viperCalls := viperCalls s; config := config s; events := events s ++ [e] |}).

(** ** viper *)

Definition viper (c : viperCall) : P unit := fun s =>
  (returns tt,
   {| surroundings := surroundings s; viperCalls := viperCalls s ++ [c];
      config := config s; events := events s |}).

(** [viper.ReadInConfig()]: on success the configuration found is the one
    viper answers from. *)
Definition viper_ReadInConfig : P (option consumer.error) := fun s =>
  match ReadInConfig (viperCalls s) with
  | inl tree =>
      (returns None,
       {| surroundings := surroundings s; viperCalls := viperCalls s;
          config := tree; events := events s ++ [call_ReadInConfig] |})
  | inr err =>
      (returns (Some err),
       {| surroundings := surroundings s; viperCalls := viperCalls s;
          config := config s; events := events s ++ [call_ReadInConfig] |})
  end.

(** [viper.Sub(key)]: the table under the key, or nil. *)
Definition viper_Sub (key : string) : P (option (gmap string string)) := fun s =>
  (returns (config s !! key), s).

(** [v.GetString(key)] on the result of [viper.Sub]: the entry, the empty
    string when there is none, and a nil dereference on a nil [v]. *)
Definition GetString (v : option (gmap string string)) (key : string) : P string :=
  match v with
  | None => panic (runtimePanic consumer.nilDereference)
  | Some table => mret (default EmptyString (table !! key))
  end.

(** ** The functions of the package *)

Definition loadConfiguration (defaultConfigFile : string) : P unit :=
  _ ← match LookupEnv "INSIGHTS_RESULTS_AGGREGATOR_CONFIG_FILE" with
      | Some configFile =>
          let '(directory, basename) := Split configFile in
          let file := TrimSuffix basename (Ext basename) in
          _ ← viper (SetConfigName file);
          viper (AddConfigPath directory)
      | None =>
          _ ← viper (SetConfigName defaultConfigFile);
          viper (AddConfigPath ".")
      end;
  err ← viper_ReadInConfig;
  match err with
  | Some e => panic (panicValue "Fatal error config file: %s" e)
  | None => mret tt
  end.

Definition loadBrokerConfiguration : P broker.Configuration :=
  brokerCfg ← viper_Sub "broker";
  address ← GetString brokerCfg "address";
  topic ← GetString brokerCfg "topic";
  group ← GetString brokerCfg "group";
  mret {| broker.Address := address; broker.Topic := topic; broker.Group := group |}.

Definition loadStorageConfiguration : P StorageConfiguration :=
  storageCfg ← viper_Sub "storage";
  driver ← GetString storageCfg "driver";
  datasource ← GetString storageCfg "datasource";
  mret {| Driver := driver; DataSource := datasource |}.

Definition loadServerConfiguration : P ServerConfiguration :=
  serverCfg ← viper_Sub "server";
  address ← GetString serverCfg "address";
  api_prefix ← GetString serverCfg "api_prefix";
  mret {| Address := address; APIPrefix := api_prefix |}.

(** The constant [testMessage] of [produceMessages]. *)
Definition testMessage : string := string_of_list_byte consumer.testMessage.

Definition produceMessages : P (option consumer.error) :=
  brokerCfg ← loadBrokerConfiguration;
  err ← onBroker (call_ProduceMessage brokerCfg testMessage)
          (ProduceMessage brokerCfg testMessage);
  match err with
  | Some e => _ ← Fatal e; mret (Some e)
  | None => mret None
  end.

(** [consumerInstance.Start()], followed for [n] iterations. *)
Definition consumer_Start (n : nat) (consumerInstance : consumer.Impl)
  : P (option consumer.error) := fun s =>
  let s0 := {| surroundings := surroundings s; viperCalls := viperCalls s;
               config := config s;
               events := events s ++ [call_consumer_Start consumerInstance] |} in
  match consumer.Start OrgIDKind n consumerInstance (surroundings s0) with
  | (consumer.running _, w) => (stillRunning, withSurroundings s0 w)
  | (consumer.waiting _, w) => (stillRunning, withSurroundings s0 w)
  | (consumer.crashed p, w) => (panicking (runtimePanic p), withSurroundings s0 w)
  | (consumer.returned err, w) => (returns err, withSurroundings s0 w)
  end.

(** [consumerInstance.Close()] as a deferred call. *)
Definition consumer_Close (consumerInstance : consumer.Impl) : P unit :=
  _ ← note (call_consumer_Close consumerInstance);
  _ ← inConsumer (consumer.Close consumerInstance);
  mret tt.

Definition startConsumer (n : nat) : P (option consumer.error) :=
  storageCfg ← loadStorageConfiguration;
  r ← onStorage (call_storage_New storageCfg) (storage_New storageCfg);
  match r with
  | inr err => _ ← Fatal err; mret (Some err)
  | inl storage =>
      deferring (onStorage (call_storage_Close storage)
                   (fun db => (tt, storage_Close storage db)))
        (brokerCfg ← loadBrokerConfiguration;
         _ ← note (call_consumer_New brokerCfg storage);
         r ← inConsumer (consumer.New brokerCfg storage);
         match r with
         | (_, Some err) => _ ← Fatal err; mret (Some err)
         | (None, None) => panic (runtimePanic consumer.nilDereference)
         | (Some consumerInstance, None) =>
             deferring (consumer_Close consumerInstance)
               (err ← consumer_Start n consumerInstance;
                match err with
                | Some e => _ ← Fatal e; mret (Some e)
                | None => mret None
                end)
         end)
  end.

Definition startServer : P (option consumer.error) :=
  storageCfg ← loadStorageConfiguration;
  r ← onStorage (call_storage_New storageCfg) (storage_New storageCfg);
  match r with
  | inr err => _ ← Fatal err; mret (Some err)
  | inl storage =>
      deferring (onStorage (call_storage_Close storage)
                   (fun db => (tt, storage_Close storage db)))
        (serverCfg ← loadServerConfiguration;
         _ ← note (call_server_New serverCfg storage);
         r ← onStorage call_server_Start
               (server_Start (server_New serverCfg storage));
         match r with
         | None => fun s => (stillRunning, s)
         | Some (Some e) => _ ← Fatal e; mret (Some e)
         | Some None => mret None
         end)
  end.

Definition startService (n : nat)
  (produceMessagesCmd startConsumerCmd startServerCmd : bool) : P Z :=
  if produceMessagesCmd then
    err ← produceMessages;
    match err with
    | Some _ => mret ExitStatusProducerError
    | None => mret ExitStatusOK
    end
  else if startConsumerCmd then
    err ← startConsumer n;
    match err with
    | Some _ => mret ExitStatusConsumerError
    | None => mret ExitStatusOK
    end
  else if startServerCmd then
    err ← startServer;
    match err with
    | Some _ => mret ExitStatusServerError
    | None => mret ExitStatusOK
    end
  else
    _ ← note (fmt_Println
                "Setup error: use -consumer, -server, or -produce CLI flag to select startup mode");
    mret ExitStatusNoCommand.

(** [main], with the three flags as [flag.Parse] has set them. *)
Definition main (n : nat) (produce consumer server : bool) : P unit :=
  _ ← loadConfiguration "config";
  statusCode ← startService n produce consumer server;
  os_Exit statusCode.

(** The storage closes among the events. *)
Definition storageCloses (l : list mainEvent) : list consumer.storage_Storage :=
  omap (fun e =>
          match e with
          | call_storage_Close s => Some s
          | _ => None
          end) l.

End Main.

#[export] Existing Instance P_ret.
#[export] Existing Instance P_bind.

Arguments returns {A} a.
Arguments exits {A} code.
Arguments panicking {A} c.
Arguments stillRunning {A}.

(** Two ways a function that hands back an error can be known to end: it
    never returns an error (it returns nil, exits with status 1, panics or
    goes on running), and it never returns at all. *)
Definition endsWithoutError (e : ending (option consumer.error)) : Prop :=
  match e with
  | returns (Some _) => False
  | exits code => code = 1
  | _ => True
  end.

Definition doesNotReturn (e : ending (option consumer.error)) : Prop :=
  match e with
  | returns _ => False
  | exits code => code = 1
  | _ => True
  end.

(** The exit status of the process for the way [main] ends: the operand of
    [os.Exit]; 0 when [main] returns; 2 when a panic is not recovered (the
    runtime prints it and exits with status 2); none while the process
    runs. *)
Definition processStatus {A : Type} (e : ending A) : option Z :=
  match e with
  | returns _ => Some 0
  | exits code => Some code
  | panicking _ => Some 2
  | stillRunning => None
  end.

(** ** A small process to run the program in *)

Definition testConfig : gmap string (gmap string string) :=
  {[ "broker"%string :=
       {[ "address"%string := "localhost:9092"%string;
          "topic"%string := "ccx.ocp.results"%string;
          "group"%string := "aggregator"%string ]};
     "storage"%string :=
       {[ "driver"%string := "sqlite3"%string;
          "datasource"%string := ":memory:"%string ]};
     "server"%string :=
       {[ "address"%string := ":8080"%string;
          "api_prefix"%string := "/api/v1/"%string ]} ]}.

(** What the surroundings answer, written down beforehand. *)
Record plan := {
  configFileEnv : option string;
  readConfig : gmap string (gmap string string) + consumer.error;
  produce : option consumer.error;
  openStorage : option consumer.error;
  serve : option (option consumer.error)
}.

Definition plannedMain (p : plan)
  : @MainModel consumer.fixedStorage consumer.scriptedSarama := {|
  LookupEnv name :=
    if String.eqb name "INSIGHTS_RESULTS_AGGREGATOR_CONFIG_FILE"
    then configFileEnv p else None;
  ReadInConfig _ := readConfig p;
  ProduceMessage _ _ s := (produce p, s);
  storage_New _ db :=
    (match openStorage p with
     | Some e => inr e
     | None => inl (None : @consumer.storage_Storage consumer.fixedStorage)
     end, db);
  storage_Close _ db := db;
  server_HTTPServer := unit;
  server_New _ _ := tt;
  server_Start _ db := (serve p, db)
|}.

Definition goodPlan : plan :=
  {| configFileEnv := Some "/etc/aggregator/config.toml"%string;
     readConfig := inl testConfig; produce := None; openStorage := None;
     serve := Some None |}.

(** A process that has done nothing yet. *)
Definition freshProcess (p : plan) (s : consumer.script)
  : @process consumer.fixedStorage consumer.scriptedSarama :=
  @Build_process consumer.fixedStorage consumer.scriptedSarama
    (consumer.testWorld s) [] ∅ [].

(** A process that has read the test configuration. *)
Definition configuredProcess (s : consumer.script)
  : @process consumer.fixedStorage consumer.scriptedSarama :=
  @Build_process consumer.fixedStorage consumer.scriptedSarama
    (consumer.testWorld s) [] testConfig [].

End aggregator.

(* ====================================================================== *)
(** * Properties of the decoder *)
(* ====================================================================== *)

Import consumer.

Section DecoderFacts.

Variable k : intKind.

#[local] Arguments decodeMember : simpl never.

Abbreviation decode := (fold_left (decodeMember k)).

Lemma storeIntPtr_error name v old :
  snd (json.storeIntPtr k name v old) = snd (json.storeIntPtr k name v None).
Proof.
  destruct v; simpl; try reflexivity.
  destruct (json.numberToInt k lit); reflexivity.
Qed.

Lemma storeStringPtr_error name v old :
  snd (json.storeStringPtr name v old) = snd (json.storeStringPtr name v None).
Proof. destruct v; reflexivity. Qed.

Lemma decodeMember_error d e m :
  snd (decodeMember k (d, e) m) = json.saveError e (typeError k m).
Proof.
  destruct m as [key v]. unfold decodeMember, typeError. simpl fst; simpl snd.
  destruct (matchField key) as [[ | | ]|]; simpl.
  - rewrite <- (storeIntPtr_error _ v (Organization d)).
    destruct (json.storeIntPtr k "OrgID" v (Organization d)); reflexivity.
  - rewrite <- (storeStringPtr_error _ v (ClusterName d)).
    destruct (json.storeStringPtr "ClusterName" v (ClusterName d)); reflexivity.
  - rewrite <- (storeStringPtr_error _ v (Report d)).
    destruct (json.storeStringPtr "Report" v (Report d)); reflexivity.
  - destruct e; reflexivity.
Qed.

Lemma typeError_illTyped m : typeError k m = None <-> illTyped k m = false.
Proof.
  destruct m as [key v]. unfold typeError, illTyped. simpl fst; simpl snd.
  destruct (matchField key) as [[ | | ]|]; [| | |tauto];
    destruct v; simpl; try (split; congruence).
  destruct (json.numberToInt k lit); simpl; split; congruence.
Qed.

(** An error once saved stays. *)
Lemma decode_saved ms : forall d e0,
  snd (decode ms (d, Some e0)) = Some e0.
Proof.
  induction ms as [|m ms IH]; intros d e0; [reflexivity|].
  simpl. destruct (decodeMember k (d, Some e0) m) as [d' e'] eqn:E.
  pose proof (decodeMember_error d (Some e0) m) as H. rewrite E in H.
  simpl in H. subst e'. apply IH.
Qed.

(** Decoding an object saves no error exactly when no member is ill-typed. *)
Lemma decode_error_none ms : forall d,
  snd (decode ms (d, None)) = None <-> existsb (illTyped k) ms = false.
Proof.
  induction ms as [|m ms IH]; intros d; [simpl; tauto|].
  simpl. destruct (decodeMember k (d, None) m) as [d' e'] eqn:E.
  pose proof (decodeMember_error d None m) as H. rewrite E in H.
  simpl in H. subst e'.
  destruct (typeError k m) as [e1|] eqn:T.
  - rewrite decode_saved.
    assert (illTyped k m = true) as ->.
    { destruct (illTyped k m) eqn:I; [reflexivity|].
      apply typeError_illTyped in I. congruence. }
    simpl. split; congruence.
  - apply typeError_illTyped in T. rewrite T. simpl. apply IH.
Qed.

(** The cases of [decodeMember]: the key selects one of the three fields
    or none, and the store into the selected field hands back a pair. *)
Ltac by_member_cases d m :=
  let key := fresh "key" in
  let v := fresh "v" in
  destruct m as [key v]; unfold decodeMember, selects; simpl fst; simpl snd;
  destruct (matchField key) as [[ | | ]|]; simpl; try reflexivity;
  [ destruct (json.storeIntPtr k "OrgID" v (Organization d))
  | destruct (json.storeStringPtr "ClusterName" v (ClusterName d))
  | destruct (json.storeStringPtr "Report" v (Report d)) ];
  reflexivity.

(** What one member does to each field: the field its key selects is
    stored, the others stay. *)
Lemma decodeMember_Organization d e m :
  Organization (fst (decodeMember k (d, e) m)) =
  if selects fOrganization m
  then fst (json.storeIntPtr k (fieldKey fOrganization) (snd m) (Organization d))
  else Organization d.
Proof. by_member_cases d m. Qed.

Lemma decodeMember_ClusterName d e m :
  ClusterName (fst (decodeMember k (d, e) m)) =
  if selects fClusterName m
  then fst (json.storeStringPtr (fieldKey fClusterName) (snd m) (ClusterName d))
  else ClusterName d.
Proof. by_member_cases d m. Qed.

Lemma decodeMember_Report d e m :
  Report (fst (decodeMember k (d, e) m)) =
  if selects fReport m
  then fst (json.storeStringPtr (fieldKey fReport) (snd m) (Report d))
  else Report d.
Proof. by_member_cases d m. Qed.

Lemma bound_cons f m ms :
  bound f (m :: ms) = if selects f m then snd m :: bound f ms else bound f ms.
Proof. unfold bound. simpl. destruct (selects f m); reflexivity. Qed.

(** Each field of the decoded struct is the result of storing, one after
    the other, the values the object binds to its key. *)
Lemma decode_Organization ms : forall d e,
  Organization (fst (decode ms (d, e))) =
  fold_left (fun old v => fst (json.storeIntPtr k (fieldKey fOrganization) v old))
    (bound fOrganization ms) (Organization d).
Proof.
  induction ms as [|m ms IH]; intros d e; [reflexivity|].
  simpl fold_left at 1. destruct (decodeMember k (d, e) m) as [d' e'] eqn:E.
  rewrite IH, bound_cons.
  pose proof (decodeMember_Organization d e m) as H. rewrite E in H.
  simpl in H. rewrite H. destruct (selects fOrganization m); reflexivity.
Qed.

Lemma decode_ClusterName ms : forall d e,
  ClusterName (fst (decode ms (d, e))) =
  fold_left (fun old v => fst (json.storeStringPtr (fieldKey fClusterName) v old))
    (bound fClusterName ms) (ClusterName d).
Proof.
  induction ms as [|m ms IH]; intros d e; [reflexivity|].
  simpl fold_left at 1. destruct (decodeMember k (d, e) m) as [d' e'] eqn:E.
  rewrite IH, bound_cons.
  pose proof (decodeMember_ClusterName d e m) as H. rewrite E in H.
  simpl in H. rewrite H. destruct (selects fClusterName m); reflexivity.
Qed.

Lemma decode_Report ms : forall d e,
  Report (fst (decode ms (d, e))) =
  fold_left (fun old v => fst (json.storeStringPtr (fieldKey fReport) v old))
    (bound fReport ms) (Report d).
Proof.
  induction ms as [|m ms IH]; intros d e; [reflexivity|].
  simpl fold_left at 1. destruct (decodeMember k (d, e) m) as [d' e'] eqn:E.
  rewrite IH, bound_cons.
  pose proof (decodeMember_Report d e m) as H. rewrite E in H.
  simpl in H. rewrite H. destruct (selects fReport m); reflexivity.
Qed.

(** A member bound to null leaves a struct whose field is nil as it is. *)
Lemma decodeMember_null f d e key :
  selects f (key, json.JNull) = true -> isSet d f = false ->
  decodeMember k (d, e) (key, json.JNull) = (d, e).
Proof.
  unfold selects, decodeMember, isSet. simpl fst.
  destruct d as [o c r]. simpl.
  destruct (matchField key) as [[ | | ]|], f; simpl; try discriminate;
    intros _ H; apply bool_decide_eq_false in H;
    match goal with
    | H : ¬ is_Some ?x |- _ => destruct x; [exfalso; apply H; eauto|]
    end; destruct e; reflexivity.
Qed.

(** A member that does not select a field leaves it as it is. *)
Lemma decodeMember_isSet_other f d e m :
  selects f m = false ->
  isSet (fst (decodeMember k (d, e) m)) f = isSet d f.
Proof.
  intros H. destruct f; unfold isSet.
  - rewrite decodeMember_Organization, H. reflexivity.
  - rewrite decodeMember_ClusterName, H. reflexivity.
  - rewrite decodeMember_Report, H. reflexivity.
Qed.

(** A member that selects a field sets it unless its value is null. *)
Lemma decodeMember_isSet f d e m :
  selects f m = true ->
  isSet (fst (decodeMember k (d, e) m)) f = negb (isNull (snd m)).
Proof.
  intros H. destruct f; unfold isSet.
  - rewrite decodeMember_Organization, H. destruct m as [key v]; simpl.
    destruct v; simpl; try reflexivity.
    destruct (json.numberToInt k lit); reflexivity.
  - rewrite decodeMember_ClusterName, H. destruct m as [key v]; simpl.
    destruct v; reflexivity.
  - rewrite decodeMember_Report, H. destruct m as [key v]; simpl.
    destruct v; reflexivity.
Qed.

(** Whether a field is set after decoding is decided by the last value
    bound to its key. *)
Lemma decode_isSet f ms : forall d e,
  isSet (fst (decode ms (d, e))) f =
  match last (bound f ms) with
  | Some v => negb (isNull v)
  | None => isSet d f
  end.
Proof.
  induction ms as [|m ms IH]; intros d e; [reflexivity|].
  simpl fold_left. destruct (decodeMember k (d, e) m) as [d' e'] eqn:E.
  rewrite IH, bound_cons. destruct (selects f m) eqn:S.
  - pose proof (decodeMember_isSet f d e m S) as H. rewrite E in H. simpl in H.
    rewrite last_cons. destruct (last (bound f ms)); [reflexivity|exact H].
  - pose proof (decodeMember_isSet_other f d e m S) as H. rewrite E in H.
    simpl in H. destruct (last (bound f ms)); [reflexivity|exact H].
Qed.

(** Null bindings of a key decode like no binding at all. *)
Lemma decode_without f ms : forall d e,
  isSet d f = false ->
  Forall (fun v => v = json.JNull) (bound f ms) ->
  decode ms (d, e) = decode (without f ms) (d, e).
Proof.
  induction ms as [|m ms IH]; intros d e Hd Hn; [reflexivity|].
  rewrite bound_cons in Hn. unfold without. simpl.
  destruct (selects f m) eqn:S; simpl.
  - inversion Hn as [|v vs Hv Hvs]; subst. destruct m as [key v]. simpl in Hv. subst v.
    rewrite (decodeMember_null f d e key S Hd). apply IH; assumption.
  - destruct (decodeMember k (d, e) m) as [d' e'] eqn:E.
    apply IH; [|assumption].
    pose proof (decodeMember_isSet_other f d e m S) as H. rewrite E in H.
    simpl in H. congruence.
Qed.

End DecoderFacts.

Section ParseMessageFacts.

Variable k : intKind.

Lemma Unmarshal_object data ms :
  json.parse data = Some (json.JObject ms) ->
  Unmarshal k data = fold_left (decodeMember k) ms (zeroMessage, None).
Proof. intros H. unfold Unmarshal. rewrite H. reflexivity. Qed.

(** [json.Unmarshal] hands back an error on the malformed payloads and on
    no others. *)
Lemma Unmarshal_error data :
  snd (Unmarshal k data) = None <-> malformed k data = false.
Proof.
  unfold Unmarshal, malformed.
  destruct (json.parse data) as [v|]; [|simpl; split; discriminate].
  destruct v; simpl; try (split; discriminate); try tauto.
  apply decode_error_none.
Qed.

Lemma parseMessage_decode_error data e :
  snd (Unmarshal k data) = Some e -> parseMessage k data = failure (jsonError e).
Proof.
  unfold parseMessage. destruct (Unmarshal k data) as [d err]. simpl.
  intros ->. reflexivity.
Qed.

Lemma parseMessage_missing data d f rest :
  Unmarshal k data = (d, None) -> missingFields d = f :: rest ->
  parseMessage k data = failure (missingAttribute f).
Proof.
  unfold parseMessage. intros ->. destruct d as [[o|] [c|] [r|]];
    unfold missingFields; simpl; intros H; inversion H; reflexivity.
Qed.

Lemma parseMessage_decoded data o c r :
  Unmarshal k data =
    ({| Organization := Some o; ClusterName := Some c; Report := Some r |}, None) ->
  parseMessage k data = (o, c, r, None).
Proof. unfold parseMessage. intros ->. reflexivity. Qed.

End ParseMessageFacts.

Section ProcessMessageFacts.

Context {storageModel : StorageModel} {saramaModel : SaramaModel}.
Variable k : intKind.

(** A message that does not parse: three lines are logged, the error is
    handed back, and nothing else happens. *)
Lemma ProcessMessage_failure (consumer : Impl) msg e w :
  parseMessage k (Value msg) = failure e ->
  ProcessMessage k consumer (Some msg) w =
    (ok (Some e),
     {| db := db w; net := net w;
        trace := ((trace w
          ++ [log_Printf "Consumed message offset %d\n" [argInt (Offset msg)]])
          ++ [log_Println [argInt 0; argString ""; argString ""; argError (Some e)]])
          ++ [log_Println [argString "Error parsing message from Kafka:";
                           argError (Some e)]] |}).
Proof.
  intros H. unfold ProcessMessage, mbind, M_bind, mret, M_ret, emit. simpl.
  rewrite H. unfold failure. reflexivity.
Qed.

(** A message that parses: two lines are logged, the storage is called
    once, and its answer is handed back, after one more line when it is an
    error. *)
Lemma ProcessMessage_parsed (consumer : Impl) msg o c r w err db' :
  parseMessage k (Value msg) = (o, c, r, None) ->
  WriteReportForCluster (Storage consumer) o c r (db w) = (err, db') ->
  ProcessMessage k consumer (Some msg) w =
    (ok err,
     {| db := db'; net := net w;
        trace := ((trace w
          ++ [log_Printf "Consumed message offset %d\n" [argInt (Offset msg)]])
          ++ [log_Println [argInt o; argString c; argString r; argError None]])
          ++ [call_WriteReportForCluster (Storage consumer) o c r]
          ++ match err with
             | Some e => [log_Println [argString "Error writing report to database:";
                                      argError (Some e)]]
             | None => []
             end |}).
Proof.
  intros H W. unfold ProcessMessage, mbind, M_bind, mret, M_ret, emit, onStorage.
  simpl. rewrite H. simpl. rewrite W.
  destruct err; simpl; rewrite <- ?app_assoc; reflexivity.
Qed.

Lemma storageCalls_app (t1 t2 : list event) :
  storageCalls (t1 ++ t2) = storageCalls t1 ++ storageCalls t2.
Proof. unfold storageCalls. apply omap_app. Qed.

End ProcessMessageFacts.

Section PayloadFacts.

Variable k : intKind.

Lemma field_eqb_refl f : field_eqb f f = true.
Proof. destruct f; reflexivity. Qed.

(** An object all of whose bindings of the three keys are null or of the
    type of their field has no ill-typed member. *)
Lemma well_typed_bindings ms :
  (forall f, Forall (fun v => isNull v || hasFieldType k f v = true) (bound f ms)) ->
  existsb (illTyped k) ms = false.
Proof.
  induction ms as [|m ms IH]; intros H; [reflexivity|].
  simpl. rewrite IH.
  - rewrite orb_false_r. unfold illTyped.
    destruct (matchField (fst m)) as [f|] eqn:E; [|reflexivity].
    specialize (H f). rewrite bound_cons in H. unfold selects in H.
    rewrite E, field_eqb_refl in H. inversion H as [|v vs Hv Hvs]; subst.
    rewrite Hv. reflexivity.
  - intros f. specialize (H f). rewrite bound_cons in H.
    destruct (selects f m); [inversion H; assumption|assumption].
Qed.

(** A value of the type of a field is not null. *)
Lemma hasFieldType_not_null f v : hasFieldType k f v = true -> isNull v = false.
Proof. destruct f, v; simpl; congruence. Qed.

Lemma well_typed_no_error ms :
  (forall f, Forall (fun v => hasFieldType k f v = true) (bound f ms)) ->
  existsb (illTyped k) ms = false.
Proof.
  intros H. apply well_typed_bindings. intros f.
  eapply Forall_impl; [apply H|]. simpl. intros v ->. apply orb_true_r.
Qed.

(** Of the values bound to a key, the last one is the one that stays. *)
Lemma store_last_int name l old lit o :
  last l = Some (json.JNumber lit) -> json.numberToInt k lit = Some o ->
  fold_left (fun old v => fst (json.storeIntPtr k name v old)) l old = Some o.
Proof.
  intros L N. apply last_Some in L as [l' ->].
  rewrite fold_left_app. simpl. rewrite N. reflexivity.
Qed.

Lemma store_last_string name l old s :
  last l = Some (json.JString s) ->
  fold_left (fun old v => fst (json.storeStringPtr name v old)) l old = Some s.
Proof.
  intros L. apply last_Some in L as [l' ->].
  rewrite fold_left_app. reflexivity.
Qed.

(** The payloads of the first claim decode to their three values. *)
Lemma Unmarshal_well_formed data members lit o c r :
  json.parse data = Some (json.JObject members) ->
  (forall f, Forall (fun v => hasFieldType k f v = true) (bound f members)) ->
  last (bound fOrganization members) = Some (json.JNumber lit) ->
  json.numberToInt k lit = Some o ->
  last (bound fClusterName members) = Some (json.JString c) ->
  last (bound fReport members) = Some (json.JString r) ->
  Unmarshal k data =
    ({| Organization := Some o; ClusterName := Some c; Report := Some r |}, None).
Proof.
  intros P T Bo No Bc Br. rewrite (Unmarshal_object k data members P).
  destruct (fold_left (decodeMember k) members (zeroMessage, None)) as [d e] eqn:E.
  assert (e = None) as ->.
  { change e with (snd (d, e)). rewrite <- E.
    apply decode_error_none, well_typed_no_error, T. }
  pose proof (decode_Organization k members zeroMessage None) as Ho.
  pose proof (decode_ClusterName k members zeroMessage None) as Hc.
  pose proof (decode_Report k members zeroMessage None) as Hr.
  rewrite E in Ho, Hc, Hr. simpl fst in Ho, Hc, Hr.
  rewrite (store_last_int _ _ _ _ _ Bo No) in Ho.
  rewrite (store_last_string _ _ _ _ Bc) in Hc.
  rewrite (store_last_string _ _ _ _ Br) in Hr.
  destruct d; simpl in *. subst. reflexivity.
Qed.

(** A key that is absent from the object leaves its field missing. *)
Lemma absent_key_missing data members f :
  json.parse data = Some (json.JObject members) ->
  bound f members = [] ->
  In f (missingFields (fst (Unmarshal k data))).
Proof.
  intros P B. rewrite (Unmarshal_object k data members P).
  unfold missingFields. apply filter_In. split.
  - destruct f; simpl; tauto.
  - rewrite decode_isSet, B. destruct f; reflexivity.
Qed.

End PayloadFacts.

(* ====================================================================== *)
(** * Properties of [ProcessMessage] *)
(* ====================================================================== *)

(** C1, as amended. For every message whose payload is a JSON object (a
    text the scanner accepts, so nested no deeper than [maxNestingDepth])
    in which each of the three fields is selected by some member and
    every member that selects a field has a value of its type, an integer
    literal of the kind of [types.OrgID] for OrgID and a string for the
    other two, [ProcessMessage] calls [WriteReportForCluster] exactly
    once, with the values of the last member that selects each field, and
    hands back what that call hands back: no error when the write
    succeeds, the error of the storage when it fails. A member selects a
    field as [encoding/json] matches keys: its key is the key of the
    field, or is the key of no field and equals that of the field up to
    case, so that a member with the key orgid counts for OrgID. *)
Theorem ProcessMessage_well_formed
  {storageModel : StorageModel} {saramaModel : SaramaModel} (k : intKind)
  (consumer : Impl) (msg : ConsumerMessage) members lit o c r (w : world) err db' :
  json.parse (Value msg) = Some (json.JObject members) ->
  (forall f, Forall (fun v => hasFieldType k f v = true) (bound f members)) ->
  last (bound fOrganization members) = Some (json.JNumber lit) ->
  json.numberToInt k lit = Some o ->
  last (bound fClusterName members) = Some (json.JString c) ->
  last (bound fReport members) = Some (json.JString r) ->
  WriteReportForCluster (Storage consumer) o c r (db w) = (err, db') ->
  exists w',
    ProcessMessage k consumer (Some msg) w = (ok err, w')
    /\ storageCalls (trace w') = storageCalls (trace w) ++ [(o, c, r)]
    /\ db w' = db' /\ net w' = net w.
Proof.
  intros P T Bo No Bc Br W.
  pose proof (Unmarshal_well_formed k _ _ _ _ _ _ P T Bo No Bc Br) as U.
  apply parseMessage_decoded in U.
  eexists. split; [apply (ProcessMessage_parsed k consumer msg o c r w err db' U W)|].
  simpl. repeat split.
  rewrite !storageCalls_app. simpl. destruct err; simpl; rewrite ?app_nil_r; reflexivity.
Qed.

(** The message of [produceMessages], written to a storage that works. *)
Lemma ProcessMessage_well_formed_witness :
  exists w',
    @ProcessMessage fixedStorage scriptedSarama kind_int (testConsumer None)
      (Some {| Offset := 7; Value := testMessage |}) (testWorld testScript) = (ok None, w')
    /\ storageCalls (trace w') =
         storageCalls (trace (testWorld testScript))
         ++ [(1, "aaaaaaaa-bbbb-cccc-dddd-000000000000"%string, "{}"%string)]
    /\ db w' = [(1, "aaaaaaaa-bbbb-cccc-dddd-000000000000"%string, "{}"%string)]
    /\ net w' = net (testWorld testScript).
Proof.
  apply (@ProcessMessage_well_formed fixedStorage scriptedSarama kind_int
           (testConsumer None) {| Offset := 7; Value := testMessage |}
           [("OrgID"%string, json.JNumber "1");
            ("ClusterName"%string, json.JString "aaaaaaaa-bbbb-cccc-dddd-000000000000");
            ("Report"%string, json.JString "{}")] "1");
    try reflexivity.
  intros [ | | ]; repeat constructor.
Defined.

(** C1, as stated, fails in two places. Where the storage fails: the
    well-formed message of [produceMessages], written to a storage that
    answers with an error, is handed back with that error. And where the
    integer does not fit: an OrgID of 2^64 is an integer of the text, and
    for every kind of [types.OrgID] the decoder refuses it, so that the
    storage is not called. *)
Lemma well_formed_message_refused :
  (json.parse testMessage =
     Some (json.JObject
             [("OrgID"%string, json.JNumber "1");
              ("ClusterName"%string, json.JString "aaaaaaaa-bbbb-cccc-dddd-000000000000");
              ("Report"%string, json.JString "{}")])
   /\ fst (@ProcessMessage fixedStorage scriptedSarama kind_int
             (testConsumer (Some (foreignError "database is locked")))
             (Some {| Offset := 7; Value := testMessage |}) (testWorld testScript))
      = ok (Some (foreignError "database is locked")))
  /\ (json.parse (jsonText "{'OrgID':18446744073709551616,'ClusterName':'c','Report':'r'}") =
       Some (json.JObject
               [("OrgID"%string, json.JNumber "18446744073709551616");
                ("ClusterName"%string, json.JString "c");
                ("Report"%string, json.JString "r")])
      /\ forall k,
           parseMessage k
             (jsonText "{'OrgID':18446744073709551616,'ClusterName':'c','Report':'r'}")
           = failure (jsonError
                        (json.UnmarshalTypeError "number 18446744073709551616" "OrgID"))).
Proof.
  split; [split; vm_compute; reflexivity|]. split; [vm_compute; reflexivity|].
  intros k. apply parseMessage_decode_error.
  rewrite (Unmarshal_object k _
             [("OrgID"%string, json.JNumber "18446744073709551616");
              ("ClusterName"%string, json.JString "c");
              ("Report"%string, json.JString "r")]) by (vm_compute; reflexivity).
  assert (json.numberToInt k "18446744073709551616" = None) as N.
  { unfold json.numberToInt. destruct (signed k); reflexivity. }
  assert (forall ms s m, fold_left (decodeMember k) (m :: ms) s
                         = fold_left (decodeMember k) ms (decodeMember k s m)) as C
    by reflexivity.
  rewrite C.
  assert (decodeMember k (zeroMessage, None)
            ("OrgID"%string, json.JNumber "18446744073709551616")
          = ({| Organization := Some 0; ClusterName := None; Report := None |},
             Some (json.UnmarshalTypeError "number 18446744073709551616" "OrgID"))) as ->.
  { unfold decodeMember. change (matchField "OrgID") with (Some fOrganization).
    cbv iota beta. unfold json.storeIntPtr. rewrite N. reflexivity. }
  apply decode_saved.
Qed.

(** The same for every message whose payload does not parse: the error is
    handed back and the storage is left alone. *)
Lemma ProcessMessage_rejects
  {storageModel : StorageModel} {saramaModel : SaramaModel} (k : intKind)
  (consumer : Impl) (msg : ConsumerMessage) e (w : world) :
  parseMessage k (Value msg) = failure e ->
  exists w',
    ProcessMessage k consumer (Some msg) w = (ok (Some e), w')
    /\ storageCalls (trace w') = storageCalls (trace w)
    /\ db w' = db w /\ net w' = net w.
Proof.
  intros H. eexists. split; [apply (ProcessMessage_failure k consumer msg e w H)|].
  simpl. repeat split. rewrite !storageCalls_app. simpl. rewrite !app_nil_r. reflexivity.
Qed.



(** With several fields missing the first one is named alone: a payload
    without ClusterName and without Report. *)
Example missing_fields_first_named :
  parseMessage kind_int (jsonText "{'OrgID':1}") = failure (missingAttribute fClusterName)
  /\ parseMessage kind_int (jsonText "{}") = failure (missingAttribute fOrganization)
  /\ parseMessage kind_int (jsonText "{'Report':'r'}")
     = failure (missingAttribute fOrganization).
Proof. repeat split; vm_compute; reflexivity. Qed.

(** C5, as amended. For every payload [json.Unmarshal] cannot decode into
    the struct (bytes that are no JSON text, a text that is neither an
    object nor null, an object that binds one of the three keys to a value
    that is neither null nor of the type of its field) [parseMessage] hands
    back the error of the decoder, whatever fields are present, and
    [ProcessMessage] hands it back without calling the storage. *)
Theorem malformed_payload_rejected
  {storageModel : StorageModel} {saramaModel : SaramaModel} (k : intKind)
  (consumer : Impl) (msg : ConsumerMessage) (w : world) :
  malformed k (Value msg) = true ->
  exists e,
    parseMessage k (Value msg) = failure (jsonError e)
    /\ exists w',
         ProcessMessage k consumer (Some msg) w = (ok (Some (jsonError e)), w')
         /\ storageCalls (trace w') = storageCalls (trace w)
         /\ db w' = db w /\ net w' = net w.
Proof.
  intros H. destruct (snd (Unmarshal k (Value msg))) as [e|] eqn:E.
  - exists e. pose proof (parseMessage_decode_error k _ _ E) as P.
    split; [exact P|]. apply ProcessMessage_rejects. exact P.
  - apply Unmarshal_error in E. congruence.
Qed.

(** An array instead of an object. *)
Lemma malformed_payload_rejected_witness :
  exists e,
    parseMessage kind_int (jsonText "['OrgID', 1]") = failure (jsonError e)
    /\ exists w',
         @ProcessMessage fixedStorage scriptedSarama kind_int (testConsumer None)
           (Some {| Offset := 4; Value := jsonText "['OrgID', 1]" |}) (testWorld testScript)
         = (ok (Some (jsonError e)), w')
         /\ storageCalls (trace w') = storageCalls (trace (testWorld testScript))
         /\ db w' = db (testWorld testScript) /\ net w' = net (testWorld testScript).
Proof.
  apply (@malformed_payload_rejected fixedStorage scriptedSarama kind_int
           (testConsumer None) {| Offset := 4; Value := jsonText "['OrgID', 1]" |}).
  reflexivity.
Defined.

(** C5, as stated, fails on the payload null: it is no JSON object, and yet
    the decoder accepts it and the presence check answers, with the
    validation error for OrgID. *)
Lemma null_payload_not_a_decode_error :
  json.parse (jsonText "null") = Some json.JNull
  /\ parseMessage kind_int (jsonText "null") = failure (missingAttribute fOrganization)
  /\ fst (@ProcessMessage fixedStorage scriptedSarama kind_int (testConsumer None)
            (Some {| Offset := 5; Value := jsonText "null" |}) (testWorld testScript))
     = ok (Some (errorString "Missing required attribute 'OrgID'")).
Proof. repeat split; vm_compute; reflexivity. Qed.

(** C10, as amended. A payload that is a JSON object in which the members
    that select a field (by its key, as [encoding/json] matches keys: the
    key itself or, for want of it, the key up to case) are there and all
    have the value null is parsed exactly like the payload without those
    members; when each of the other two fields is selected by some
    member, and only by members with values of its type, the result is
    the validation error that names the field. *)
Theorem null_is_absent (k : intKind) (data data' : list byte) members f :
  json.parse data = Some (json.JObject members) ->
  bound f members <> [] ->
  Forall (fun v => v = json.JNull) (bound f members) ->
  json.parse data' = Some (json.JObject (without f members)) ->
  parseMessage k data = parseMessage k data'
  /\ ((forall g, g <> f ->
        bound g members <> []
        /\ Forall (fun v => hasFieldType k g v = true) (bound g members)) ->
      parseMessage k data = failure (missingAttribute f)).
Proof.
  intros P Hne Hn P'.
  assert (Unmarshal k data = Unmarshal k data') as U.
  { rewrite (Unmarshal_object k _ _ P), (Unmarshal_object k _ _ P').
    apply decode_without; [destruct f; reflexivity|assumption]. }
  split; [unfold parseMessage; rewrite U; reflexivity|].
  intros Hg.
  destruct (Unmarshal k data) as [d e] eqn:E.
  assert (e = None) as ->.
  { change e with (snd (d, e)). rewrite <- E. rewrite (Unmarshal_object k _ _ P).
    apply decode_error_none, well_typed_bindings. intros g.
    destruct (decide (g = f)) as [->|Hgf].
    - eapply Forall_impl; [exact Hn|]. intros v ->. reflexivity.
    - destruct (Hg g Hgf) as [_ Hv]. eapply Forall_impl; [exact Hv|].
      simpl. intros v ->. apply orb_true_r. }
  assert (forall g, isSet d g = negb (bool_decide (g = f))) as S.
  { intros g. change d with (fst (d, @None json.Error)).
    rewrite <- E, (Unmarshal_object k _ _ P), decode_isSet.
    destruct (decide (g = f)) as [->|Hgf].
    - rewrite bool_decide_true by reflexivity.
      destruct (last (bound f members)) as [v|] eqn:L.
      + apply last_Some in L as [l' L]. rewrite L in Hn.
        apply Forall_app in Hn as [_ Hn]. inversion Hn; subst. reflexivity.
      + apply last_None in L. contradiction.
    - rewrite bool_decide_false by assumption.
      destruct (Hg g Hgf) as [Hb Hv].
      destruct (last (bound g members)) as [v|] eqn:L.
      + apply last_Some in L as [l' L]. rewrite L in Hv.
        apply Forall_app in Hv as [_ Hv]. inversion Hv; subst.
        erewrite hasFieldType_not_null by eassumption. reflexivity.
      + apply last_None in L. contradiction. }
  apply (parseMessage_missing k data d f []); [assumption|].
  unfold missingFields, fields. cbn [List.filter]. rewrite !S.
  destruct f; reflexivity.
Qed.

(** ClusterName bound to null, next to the same payload without it. *)
Lemma null_is_absent_witness :
  parseMessage kind_int (jsonText "{'OrgID':1,'ClusterName':null,'Report':'{}'}")
  = parseMessage kind_int (jsonText "{'OrgID':1,'Report':'{}'}")
  /\ parseMessage kind_int (jsonText "{'OrgID':1,'ClusterName':null,'Report':'{}'}")
     = failure (missingAttribute fClusterName).
Proof.
  pose proof (null_is_absent kind_int
           (jsonText "{'OrgID':1,'ClusterName':null,'Report':'{}'}")
           (jsonText "{'OrgID':1,'Report':'{}'}")
           [("OrgID"%string, json.JNumber "1");
            ("ClusterName"%string, json.JNull);
            ("Report"%string, json.JString "{}")] fClusterName
           eq_refl ltac:(discriminate) ltac:(repeat constructor) eq_refl) as [A B].
  split; [exact A|]. apply B.
  intros [ | | ] H; try contradiction; split; try discriminate; repeat constructor.
Defined.

(** C10, as stated, fails where another key decides the result: with
    ClusterName bound to null and OrgID bound to a string the decoder
    hands back its type error, and with OrgID bound to null as well the
    validation error names OrgID; neither names ClusterName. *)
Lemma null_key_not_named :
  parseMessage kind_int (jsonText "{'OrgID':'x','ClusterName':null,'Report':'r'}")
  = failure (jsonError (json.UnmarshalTypeError "string" "OrgID"))
  /\ parseMessage kind_int (jsonText "{'OrgID':null,'ClusterName':null,'Report':'r'}")
     = failure (missingAttribute fOrganization).
Proof. split; vm_compute; reflexivity. Qed.

(* ====================================================================== *)
(** * Properties of [New], [Start] and [Close] *)
(* ====================================================================== *)

Section LifecycleFacts.

Context {storageModel : StorageModel} {saramaModel : SaramaModel}.

(** When the client reports an error for the partitions of the topic, [New]
    hands back that error and no consumer, and subscribes to nothing. *)
Lemma New_partitions_error (brokerCfg : broker.Configuration) storage (w : world)
  c s1 err s2 :
  NewConsumer [broker.Address brokerCfg] (net w) = (inl c, s1) ->
  Partitions c (broker.Topic brokerCfg) s1 = (inr err, s2) ->
  New brokerCfg storage w =
    (ok (None, Some err),
     {| db := db w; net := s2;
        trace := (trace w ++ [call_NewConsumer [broker.Address brokerCfg]])
                 ++ [call_Partitions c (broker.Topic brokerCfg)] |}).
Proof.
  intros H1 H2. unfold New, mbind, M_bind, mret, M_ret, onSarama. simpl.
  rewrite H1. simpl. rewrite H2. reflexivity.
Qed.

(** The list of partitions the client hands back without an error is never
    empty. *)
Lemma Partitions_nonempty c topic s s' : Partitions c topic s <> (inl [], s').
Proof.
  unfold Partitions. destruct (cachedPartitions c topic s) as [[[|p ps] | err] s1];
    discriminate.
Qed.

(** So the index [partitions[0]] of [New] is always in range. *)
Lemma New_never_panics (brokerCfg : broker.Configuration) storage (w : world) p :
  fst (New brokerCfg storage w) <> panics p.
Proof.
  unfold New, mbind, M_bind, mret, M_ret, onSarama, panicWith. simpl.
  destruct (NewConsumer _ _) as [[c | err] s1]; simpl; [|discriminate].
  pose proof (Partitions_nonempty c (broker.Topic brokerCfg) s1) as N.
  destruct (Partitions c (broker.Topic brokerCfg) s1) as [[[|p0 ps] | err] s2]; simpl;
    [exfalso; apply (N s2); reflexivity| |discriminate].
  destruct (ConsumePartition c _ p0 _ s2) as [[pc | err] s3]; discriminate.
Qed.

Variable k : intKind.

(** No number of iterations brings the loop to a return. *)
Lemma loop_never_returns n : forall (consumer : Impl) consumed (w : world) err,
  fst (loop k n consumer consumed w) <> returned err.
Proof.
  induction n as [|n IH]; intros consumer consumed w err; simpl; [discriminate|].
  destruct (receive consumer w) as [[msg w1]|]; [|discriminate].
  destruct (iteration k consumer msg w1) as [[[]|p] w2]; [apply IH|discriminate].
Qed.

Lemma Start_never_returns n (consumer : Impl) (w : world) err :
  fst (Start k n consumer w) <> returned err.
Proof. unfold Start. simpl. apply loop_never_returns. Qed.

End LifecycleFacts.

(** An unknown topic: the error of the client comes back, and no consumer. *)
Lemma New_partitions_error_witness :
  @New fixedStorage scriptedSarama testCfg None (testWorld unknownTopic) =
    (ok (None, Some (foreignError "kafka server: unknown topic or partition")),
     @Build_world fixedStorage scriptedSarama [] unknownTopic
       [@call_NewConsumer fixedStorage scriptedSarama ["localhost:9092"%string];
        @call_Partitions fixedStorage scriptedSarama tt "ccx.ocp.results"]).
Proof.
  apply (@New_partitions_error fixedStorage scriptedSarama testCfg None
           (testWorld unknownTopic) tt unknownTopic); reflexivity.
Defined.

(** No deduplication: a message that parses, processed twice, is written
    twice. *)
Lemma ProcessMessage_twice
  {storageModel : StorageModel} {saramaModel : SaramaModel} (k : intKind)
  (consumer : Impl) (msg : ConsumerMessage) o c r (w : world) err1 db1 err2 db2 :
  parseMessage k (Value msg) = (o, c, r, None) ->
  WriteReportForCluster (Storage consumer) o c r (db w) = (err1, db1) ->
  WriteReportForCluster (Storage consumer) o c r db1 = (err2, db2) ->
  exists w1 w2,
    ProcessMessage k consumer (Some msg) w = (ok err1, w1)
    /\ ProcessMessage k consumer (Some msg) w1 = (ok err2, w2)
    /\ storageCalls (trace w2) = storageCalls (trace w) ++ [(o, c, r); (o, c, r)].
Proof.
  intros P W1 W2. eexists. eexists.
  split; [apply (ProcessMessage_parsed k consumer msg o c r w err1 db1 P W1)|].
  split; [apply ProcessMessage_parsed; [exact P|exact W2]|].
  simpl. rewrite !storageCalls_app. simpl.
  destruct err1, err2; simpl; rewrite ?app_nil_r, <- ?app_assoc; reflexivity.
Qed.

Lemma ProcessMessage_twice_witness :
  exists w1 w2,
    @ProcessMessage fixedStorage scriptedSarama kind_int (testConsumer None)
      (Some {| Offset := 7; Value := testMessage |}) (testWorld testScript) = (ok None, w1)
    /\ @ProcessMessage fixedStorage scriptedSarama kind_int (testConsumer None)
         (Some {| Offset := 7; Value := testMessage |}) w1 = (ok None, w2)
    /\ storageCalls (trace w2) =
         storageCalls (trace (testWorld testScript))
         ++ [(1, "aaaaaaaa-bbbb-cccc-dddd-000000000000"%string, "{}"%string);
             (1, "aaaaaaaa-bbbb-cccc-dddd-000000000000"%string, "{}"%string)].
Proof.
  eapply (@ProcessMessage_twice fixedStorage scriptedSarama kind_int (testConsumer None)
            {| Offset := 7; Value := testMessage |}); reflexivity.
Defined.

(** C2. [New] never indexes the list of partitions out of range, whatever
    the configuration and the client; and when the client finds no
    partition for the configured topic, [New] hands back the error
    [sarama.ErrUnknownTopicOrPartition] and no consumer, after the calls
    [NewConsumer] and [Partitions] and without subscribing to anything. *)
Theorem New_no_partitions_error
  {storageModel : StorageModel} {saramaModel : SaramaModel}
  (brokerCfg : broker.Configuration) (storage : storage_Storage) (w : world) :
  (forall p, fst (New brokerCfg storage w) <> panics p)
  /\ (forall c s1 s2,
        NewConsumer [broker.Address brokerCfg] (net w) = (inl c, s1) ->
        cachedPartitions c (broker.Topic brokerCfg) s1 = (inl [], s2) ->
        New brokerCfg storage w =
          (ok (None, Some ErrUnknownTopicOrPartition),
           {| db := db w; net := s2;
              trace := (trace w ++ [call_NewConsumer [broker.Address brokerCfg]])
                       ++ [call_Partitions c (broker.Topic brokerCfg)] |})).
Proof.
  split; [intros p; apply New_never_panics|].
  intros c s1 s2 H1 H2. unfold New, mbind, M_bind, mret, M_ret, onSarama. simpl.
  rewrite H1. simpl. unfold Partitions. rewrite H2. reflexivity.
Qed.

(** A topic without partitions: the error comes back, and no consumer. *)
Lemma New_no_partitions_error_witness :
  @New fixedStorage scriptedSarama testCfg None (testWorld topicWithoutPartitions) =
    (ok (None, Some ErrUnknownTopicOrPartition),
     @Build_world fixedStorage scriptedSarama [] topicWithoutPartitions
       [@call_NewConsumer fixedStorage scriptedSarama ["localhost:9092"%string];
        @call_Partitions fixedStorage scriptedSarama tt "ccx.ocp.results"]).
Proof.
  apply (proj2 (@New_no_partitions_error fixedStorage scriptedSarama testCfg None
                  (testWorld topicWithoutPartitions)) tt topicWithoutPartitions
           topicWithoutPartitions); reflexivity.
Defined.

(** C3, as amended. When [ProcessMessage] hands back an error in an
    iteration, [Start] logs that error and goes on with the next iteration;
    and [Start] never returns, whatever the number of iterations and
    whatever the messages. *)
Theorem Start_logs_and_continues
  {storageModel : StorageModel} {saramaModel : SaramaModel} (k : intKind)
  n (consumer : Impl) consumed (w0 : world) msg w1 e w2 :
  receive consumer w0 = Some (msg, w1) ->
  ProcessMessage k consumer msg w1 = (ok (Some e), w2) ->
  loop k (S n) consumer consumed w0 =
    loop k n consumer (convert kind_int (consumed + 1))
      {| db := db w2; net := net w2;
         trace := trace w2
           ++ [log_Println [argString "Error processing message consumed from Kafka:";
                            argError (Some e)]] |}
  /\ forall m (c : Impl) (w : world) err, fst (Start k m c w) <> returned err.
Proof.
  intros R P. split; [|intros; apply Start_never_returns].
  simpl. rewrite R. unfold iteration, mbind, M_bind, emit. rewrite P. reflexivity.
Qed.

(** A message without ClusterName, and nothing after it: the error is
    logged and the loop waits for the next message. *)
Lemma Start_logs_and_continues_witness :
  exists w',
    fst (@loop fixedStorage scriptedSarama kind_int 2 (testConsumer None) 0
           (testWorld oneBadMessage)) = waiting 1
    /\ @loop fixedStorage scriptedSarama kind_int 2 (testConsumer None) 0
         (testWorld oneBadMessage)
       = @loop fixedStorage scriptedSarama kind_int 1 (testConsumer None) 1 w'
    /\ last (trace w') =
         Some (log_Println
                 [argString "Error processing message consumed from Kafka:";
                  argError (Some (errorString "Missing required attribute 'ClusterName'"))]).
Proof.
  eexists. split; [vm_compute; reflexivity|]. split.
  - apply (@Start_logs_and_continues fixedStorage scriptedSarama kind_int 1
             (testConsumer None) 0 (testWorld oneBadMessage)
             (Some {| Offset := 8; Value := jsonText "{'OrgID':1}" |})
             (testWorld testScript)); vm_compute; reflexivity.
  - vm_compute. reflexivity.
Defined.

(** C3, as stated, fails when the read fails: on a subscription whose
    channel has been closed the receive yields nil, [ProcessMessage] panics
    on it, and [Start] has not returned. *)
Lemma Start_closed_channel_no_return :
  @receive fixedStorage scriptedSarama (testConsumer None) (testWorld closedSubscription)
    = Some (None, testWorld closedSubscription)
  /\ fst (@Start fixedStorage scriptedSarama kind_int 1 (testConsumer None)
            (testWorld closedSubscription)) = crashed nilDereference
  /\ (forall n err,
        fst (@Start fixedStorage scriptedSarama kind_int n (testConsumer None)
               (testWorld closedSubscription)) <> returned err).
Proof.
  split; [reflexivity|]. split; [vm_compute; reflexivity|].
  intros n err. apply Start_never_returns.
Qed.

(** C6. [Close] closes the partition consumer first. When that fails, the
    error is handed back and the consumer is not closed; when it succeeds,
    the consumer is closed next and the result of that is handed back. *)
Theorem Close_order
  {storageModel : StorageModel} {saramaModel : SaramaModel} (consumer : Impl) (w : world) :
  Close consumer w =
    match PartitionConsumer_Close (PartitionConsumer consumer) (net w) with
    | (Some e, s) =>
        (ok (Some e),
         {| db := db w; net := s;
            trace := trace w ++ [call_PartitionConsumer_Close (PartitionConsumer consumer)] |})
    | (None, s) =>
        (ok (fst (Consumer_Close (Consumer consumer) s)),
         {| db := db w; net := snd (Consumer_Close (Consumer consumer) s);
            trace := (trace w ++ [call_PartitionConsumer_Close (PartitionConsumer consumer)])
                     ++ [call_Consumer_Close (Consumer consumer)] |})
    end.
Proof.
  unfold Close, mbind, M_bind, mret, M_ret, onSarama. simpl.
  destruct (PartitionConsumer_Close (PartitionConsumer consumer) (net w)) as [[e|] s];
    simpl; [reflexivity|].
  destruct (Consumer_Close (Consumer consumer) s); reflexivity.
Qed.

(** A subscription whose close fails: the connection is left open. *)
Example Close_subscription_fails :
  @Close fixedStorage scriptedSarama (testConsumer None)
    (testWorld failingSubscriptionClose)
  = (ok (Some (foreignError "broker gone")),
     @Build_world fixedStorage scriptedSarama []
       failingSubscriptionClose
       [@call_PartitionConsumer_Close fixedStorage scriptedSarama tt]).
Proof. reflexivity. Qed.

(** A subscription and a connection that close: both calls, in this order. *)
Example Close_both :
  @Close fixedStorage scriptedSarama (testConsumer None) (testWorld testScript)
  = (ok None,
     @Build_world fixedStorage scriptedSarama [] testScript
       [@call_PartitionConsumer_Close fixedStorage scriptedSarama tt;
        @call_Consumer_Close fixedStorage scriptedSarama tt]).
Proof. reflexivity. Qed.

(** End to end: the message of [produceMessages] is written once, and the
    loop waits for the next message. *)
Example Start_end_to_end :
  let '(st, w) := @Start fixedStorage scriptedSarama kind_int 3 (testConsumer None)
                    (testWorld oneGoodMessage) in
  st = waiting 1
  /\ db w = [(1, "aaaaaaaa-bbbb-cccc-dddd-000000000000"%string, "{}"%string)]
  /\ storageCalls (trace w)
     = [(1, "aaaaaaaa-bbbb-cccc-dddd-000000000000"%string, "{}"%string)].
Proof. vm_compute. repeat split. Qed.

(* ====================================================================== *)
(** * Properties of the router parameters *)
(* ====================================================================== *)

Import server.

Section RouterFacts.

Implicit Types (request : gmap string string) (paramName value : string).

Lemma GetRouterParam_present request paramName value :
  GetRouterParam (<[paramName := value]> request) paramName = (value, None).
Proof. unfold GetRouterParam. rewrite lookup_insert_eq. reflexivity. Qed.

(** A parameter that is absent from the route is the only source of a
    missing-parameter error. *)
Lemma GetRouterPositiveIntParam_absent request paramName :
  request !! paramName = None ->
  GetRouterPositiveIntParam request paramName =
    (0, Some (RouterMissingParamError paramName)).
Proof.
  intros H. unfold GetRouterPositiveIntParam, GetRouterIntParam, GetRouterParam.
  rewrite H. reflexivity.
Qed.

Lemma GetRouterPositiveIntParam_present request paramName value :
  request !! paramName = Some value ->
  GetRouterPositiveIntParam request paramName =
    match strconv.ParseInt value with
    | inr _ => (0, Some (RouterParsingError paramName (anyString value) "integer expected"))
    | inl n =>
        if n <=? 0
        then (0, Some (RouterParsingError paramName (anyInt64 n) "positive integer expected"))
        else (n, None)
    end.
Proof.
  intros H. unfold GetRouterPositiveIntParam, GetRouterIntParam, GetRouterParam.
  rewrite H. destruct (strconv.ParseInt value); reflexivity.
Qed.

(** The value [GetRouterPositiveIntParam] hands back without an error is
    positive. *)
Lemma GetRouterPositiveIntParam_positive request paramName n :
  GetRouterPositiveIntParam request paramName = (n, None) -> 0 < n.
Proof.
  destruct (request !! paramName) as [value|] eqn:H.
  - rewrite (GetRouterPositiveIntParam_present _ _ _ H).
    destruct (strconv.ParseInt value) as [m|]; [|discriminate].
    destruct (m <=? 0) eqn:L; [discriminate|].
    intros [= <-]. lia.
  - rewrite (GetRouterPositiveIntParam_absent _ _ H). discriminate.
Qed.

Lemma GetRouterPositiveIntParam_positive_witness : 0 < 42.
Proof.
  apply (GetRouterPositiveIntParam_positive {[ "organization"%string := "42"%string ]}
           "organization" 42).
  reflexivity.
Defined.

End RouterFacts.

(** C7. For every request and every parameter name: when the parameter is
    42, [GetRouterPositiveIntParam] hands back 42; when it is 0 or -5, a
    [RouterParsingError] with the name of the parameter, the offending value
    (kept as the integer, which the message of the error prints as the raw
    text) and the reason positive integer expected; when it is abc, a
    [RouterParsingError] with the name, the raw text and the reason integer
    expected. *)
Theorem GetRouterPositiveIntParam_examples (request : gmap string string)
  (paramName : string) :
  GetRouterPositiveIntParam (<[paramName := "42"%string]> request) paramName = (42, None)
  /\ (GetRouterPositiveIntParam (<[paramName := "0"%string]> request) paramName
      = (0, Some (RouterParsingError paramName (anyInt64 0) "positive integer expected"))
      /\ Error (RouterParsingError paramName (anyInt64 0) "positive integer expected")
         = "Error during parsing param " +:+ paramName
           +:+ " with value 0. Error: positive integer expected")
  /\ (GetRouterPositiveIntParam (<[paramName := "-5"%string]> request) paramName
      = (0, Some (RouterParsingError paramName (anyInt64 (-5)) "positive integer expected"))
      /\ Error (RouterParsingError paramName (anyInt64 (-5)) "positive integer expected")
         = "Error during parsing param " +:+ paramName
           +:+ " with value -5. Error: positive integer expected")
  /\ (GetRouterPositiveIntParam (<[paramName := "abc"%string]> request) paramName
      = (0, Some (RouterParsingError paramName (anyString "abc") "integer expected"))
      /\ Error (RouterParsingError paramName (anyString "abc") "integer expected")
         = "Error during parsing param " +:+ paramName
           +:+ " with value abc. Error: integer expected").
Proof.
  repeat split; try reflexivity;
    rewrite (GetRouterPositiveIntParam_present _ _ _ (lookup_insert_eq _ _ _));
    reflexivity.
Qed.

(** C8. When the cluster parameter is absent, or present and not accepted
    by [uuid.Parse], [readClusterName] logs one message, sends it with the
    status of an internal server error (500, never 400) and hands back an
    error with that message; for a parameter that is present the message is
    Cluster name format is invalid. *)
Theorem readClusterName_failure (uuid_Parse : string -> bool)
  (request : gmap string string) :
  (forall clusterName, request !! "cluster"%string = Some clusterName ->
                       uuid_Parse clusterName = false) ->
  exists message,
    readClusterName uuid_Parse request =
      ((EmptyString, Some (errorString message)),
       [log_Println message; responses_Send 500 message])
    /\ message = match request !! "cluster"%string with
                 | Some _ => "Cluster name format is invalid"%string
                 | None => "Cluster name is not provided"%string
                 end.
Proof.
  intros H. unfold readClusterName.
  destruct (request !! "cluster"%string) as [clusterName|] eqn:E.
  - rewrite (H clusterName eq_refl). eexists. split; reflexivity.
  - eexists. split; reflexivity.
Qed.

(** The cluster name of the specification's example. *)
Lemma readClusterName_failure_witness :
  exists message,
    readClusterName hyphenatedHex {[ "cluster"%string := "not-a-uuid"%string ]} =
      ((EmptyString, Some (errorString message)),
       [log_Println message; responses_Send 500 message])
    /\ message = "Cluster name format is invalid"%string.
Proof.
  destruct (readClusterName_failure hyphenatedHex
              {[ "cluster"%string := "not-a-uuid"%string ]}) as [message [A B]].
  - intros clusterName H. rewrite lookup_singleton_eq in H.
    injection H as <-. reflexivity.
  - exists message. split; [exact A|]. rewrite B, lookup_singleton_eq. reflexivity.
Defined.

(** C9. When [GetRouterPositiveIntParam] hands back an error for the
    organization, [readOrganizationID] logs it and sends it with a status
    chosen by the kind of the error alone: 400 for a [RouterParsingError],
    500 for any other error. *)
Theorem readOrganizationID_failure_class (k : intKind) (request : gmap string string) e :
  snd (GetRouterPositiveIntParam request "organization") = Some e ->
  readOrganizationID k request =
    ((0, Some (errorString ("Error getting organization ID from request " +:+ Error e))),
     [log_Println ("Error getting organization ID from request " +:+ Error e);
      responses_Send (if isParsingError e then 400 else 500) (Error e)]).
Proof.
  intros H. unfold readOrganizationID.
  destruct (GetRouterPositiveIntParam request "organization") as [n err].
  simpl in H. subst err. destruct e; reflexivity.
Qed.

(** A request whose route has no organization: status 500. *)
Lemma readOrganizationID_failure_class_witness :
  readOrganizationID kind_int ∅ =
    ((0, Some (errorString "Error getting organization ID from request missing param organization")),
     [log_Println "Error getting organization ID from request missing param organization";
      responses_Send 500 "missing param organization"]).
Proof.
  apply (readOrganizationID_failure_class kind_int ∅
           (RouterMissingParamError "organization")).
  reflexivity.
Defined.

(** An organization that is not a number: status 400. *)
Example readOrganizationID_not_a_number :
  snd (readOrganizationID kind_int {[ "organization"%string := "abc"%string ]})
  = [log_Println "Error getting organization ID from request Error during parsing param organization with value abc. Error: integer expected";
     responses_Send 400 "Error during parsing param organization with value abc. Error: integer expected"].
Proof. vm_compute. reflexivity. Qed.

(* ====================================================================== *)
(** * Further properties of package consumer *)
(* ====================================================================== *)

Section ConsumerFacts.

Context {storageModel : StorageModel} {saramaModel : SaramaModel}.
Variable k : intKind.

(** [ProcessMessage] on a message that is there: it does not panic, it
    leaves the client alone, and it asks the storage for what the message
    is accepted for. *)
Lemma ProcessMessage_frame (consumer : Impl) (msg : ConsumerMessage) (w : world) :
  exists err w',
    ProcessMessage k consumer (Some msg) w = (ok err, w')
    /\ net w' = net w
    /\ storageCalls (trace w') = storageCalls (trace w) ++ omap (accepted k) [msg].
Proof.
  unfold ProcessMessage, accepted, mbind, M_bind, mret, M_ret, emit, onStorage. simpl.
  destruct (parseMessage k (Value msg)) as [[[o c] r] [e|]]; simpl.
  - eexists _, _. split; [reflexivity|]. split; [reflexivity|]. simpl.
    rewrite !storageCalls_app. simpl. rewrite !app_nil_r. reflexivity.
  - destruct (WriteReportForCluster (Storage consumer) o c r (db w)) as [[e|] db'];
      simpl; eexists _, _; (split; [reflexivity|]); (split; [reflexivity|]); simpl;
      rewrite !storageCalls_app; simpl; rewrite ?app_nil_r; reflexivity.
Qed.

Lemma loop_stores_in_order n : forall (consumer : Impl) consumed (w : world),
  storageCalls (trace (snd (loop k n consumer consumed w)))
  = storageCalls (trace w)
    ++ omap (accepted k) (delivered n (PartitionConsumer consumer) (net w)).
Proof.
  induction n as [|n IH]; intros consumer consumed w; simpl.
  - rewrite app_nil_r. reflexivity.
  - unfold receive.
    destruct (Messages (PartitionConsumer consumer) (net w)) as [msg next | | ] eqn:E.
    + unfold iteration, mbind, M_bind.
      match goal with
      | |- context [ProcessMessage k consumer (Some msg) ?w1] =>
          destruct (ProcessMessage_frame consumer msg w1) as (err & w' & -> & Hn & Hc)
      end.
      simpl in Hn, Hc.
      destruct err as [e|]; unfold emit, mret, M_ret; simpl; rewrite IH; simpl;
        rewrite ?storageCalls_app, Hc, Hn; simpl;
        destruct (accepted k msg); simpl; rewrite ?app_nil_r, <- ?app_assoc; reflexivity.
    + simpl. rewrite app_nil_r. reflexivity.
    + simpl. rewrite app_nil_r. reflexivity.
Qed.

(** X10: followed for any number of iterations, [Start] asks the storage
    for exactly the messages it received that [parseMessage] accepts, each
    once and in the order of their delivery; a message that is refused, a
    failing write or a closed channel adds no call. *)
Theorem Start_stores_in_order n (consumer : Impl) (w : world) :
  storageCalls (trace (snd (Start k n consumer w)))
  = storageCalls (trace w)
    ++ omap (accepted k) (delivered n (PartitionConsumer consumer) (net w)).
Proof.
  unfold Start, emit. simpl. rewrite loop_stores_in_order. simpl.
  rewrite storageCalls_app. simpl. rewrite app_nil_r. reflexivity.
Qed.

(** X11: [New] hands back a consumer or an error and never both or
    neither; the consumer holds the configuration and the storage it was
    given. Its only panic is the index into an empty list of partitions.
    It does not touch the storage, and it closes nothing: on the error
    paths the client it has opened stays open. *)
Theorem New_result (brokerCfg : broker.Configuration) (storage : storage_Storage)
  (w : world) :
  let '(r, w') := New brokerCfg storage w in
  db w' = db w
  /\ List.filter isClose (trace w') = List.filter isClose (trace w)
  /\ match r with
     | ok (Some consumer, None) =>
         Configuration consumer = brokerCfg /\ Storage consumer = storage
     | ok (None, Some _) => True
     | ok _ => False
     | panics p => p = indexOutOfRange 0 0
     end.
Proof.
  unfold New, mbind, M_bind, mret, M_ret, onSarama, panicWith. simpl.
  destruct (NewConsumer _ _) as [[c | err] s1]; simpl;
    [|rewrite List.filter_app, app_nil_r; auto].
  destruct (Partitions c _ s1) as [[[|p ps] | err] s2]; simpl;
    rewrite ?List.filter_app; simpl; rewrite ?app_nil_r; auto.
  destruct (ConsumePartition c _ p _ s2) as [[pc | err] s3]; simpl;
    rewrite ?List.filter_app; simpl; rewrite ?app_nil_r; auto.
Qed.

End ConsumerFacts.

Section BindingFacts.

Variable k : intKind.

(** An object without an ill-typed member binds each key to nulls and to
    values of the type of its field only. *)
Lemma illTyped_bindings ms f :
  existsb (illTyped k) ms = false ->
  Forall (fun v => isNull v || hasFieldType k f v = true) (bound f ms).
Proof.
  induction ms as [|m ms IH]; intros H; [constructor|].
  simpl in H. apply orb_false_iff in H as [Hm Hms].
  rewrite bound_cons. unfold selects.
  destruct (matchField (fst m)) as [g|] eqn:E; [|auto].
  destruct (field_eqb f g) eqn:Hfg; [|auto].
  constructor; [|auto].
  assert (f = g) as -> by (destruct f, g; simpl in Hfg; congruence).
  unfold illTyped in Hm. rewrite E in Hm. apply negb_false_iff in Hm. exact Hm.
Qed.

Lemma decode_bindings ms ms' :
  (forall f, bound f ms = bound f ms') ->
  fst (fold_left (decodeMember k) ms (zeroMessage, None))
  = fst (fold_left (decodeMember k) ms' (zeroMessage, None)).
Proof.
  intros H.
  pose proof (decode_Organization k ms zeroMessage None) as O.
  pose proof (decode_ClusterName k ms zeroMessage None) as C.
  pose proof (decode_Report k ms zeroMessage None) as R.
  rewrite (H fOrganization), <- (decode_Organization k ms' zeroMessage None) in O.
  rewrite (H fClusterName), <- (decode_ClusterName k ms' zeroMessage None) in C.
  rewrite (H fReport), <- (decode_Report k ms' zeroMessage None) in R.
  destruct (fst (fold_left (decodeMember k) ms (zeroMessage, None))),
    (fst (fold_left (decodeMember k) ms' (zeroMessage, None))).
  simpl in *. congruence.
Qed.

(** X12: [parseMessage] looks at an object only through the values of the
    members that select each of the three fields, in their order for each
    field: two texts the scanner accepts whose objects give each field
    the same values are parsed alike when no such value is ill-typed. So
    a member whose key selects no field is ignored, and the order of
    members that select different fields does not matter. A member
    selects a field as [encoding/json] matches keys: by the key itself
    or, for want of it, by the key up to case; a member with the key
    orgid is one of OrgID, not one that is ignored. *)
Theorem parseMessage_bindings (data data' : list byte) members members' :
  json.parse data = Some (json.JObject members) ->
  json.parse data' = Some (json.JObject members') ->
  (forall f, bound f members = bound f members') ->
  malformed k data = false ->
  parseMessage k data = parseMessage k data'.
Proof.
  intros P P' H Hm.
  assert (existsb (illTyped k) members = false) as Hi
    by (unfold malformed in Hm; rewrite P in Hm; exact Hm).
  assert (existsb (illTyped k) members' = false) as Hi'.
  { apply well_typed_bindings. intros f. rewrite <- H. apply illTyped_bindings, Hi. }
  unfold parseMessage.
  rewrite (Unmarshal_object k _ _ P), (Unmarshal_object k _ _ P').
  pose proof (proj2 (decode_error_none k members zeroMessage) Hi) as E.
  pose proof (proj2 (decode_error_none k members' zeroMessage) Hi') as E'.
  pose proof (decode_bindings members members' H) as D.
  destruct (fold_left (decodeMember k) members (zeroMessage, None)) as [d e],
    (fold_left (decodeMember k) members' (zeroMessage, None)) as [d' e'].
  simpl in *. subst. reflexivity.
Qed.

End BindingFacts.

(** The keys in another order, with a member more. *)
Lemma parseMessage_bindings_witness :
  parseMessage kind_int
    (jsonText "{'Report':'{}','Version':[1,2],'ClusterName':'c','OrgID':1}")
  = parseMessage kind_int (jsonText "{'OrgID':1,'ClusterName':'c','Report':'{}'}").
Proof.
  apply (parseMessage_bindings kind_int _ _
           [("Report"%string, json.JString "{}");
            ("Version"%string, json.JArray [json.JNumber "1"; json.JNumber "2"]);
            ("ClusterName"%string, json.JString "c");
            ("OrgID"%string, json.JNumber "1")]
           [("OrgID"%string, json.JNumber "1");
            ("ClusterName"%string, json.JString "c");
            ("Report"%string, json.JString "{}")]).
  - reflexivity.
  - reflexivity.
  - intros [ | | ]; reflexivity.
  - reflexivity.
Defined.

(** A member whose key equals that of a field up to case is one of the
    field: bound to a string it is a type error for OrgID, and bound to an
    integer after the member OrgID it is the value that is decoded. *)
Example folded_key_selects :
  parseMessage kind_int
    (jsonText "{'OrgID':1,'ClusterName':'c','Report':'r','orgid':'x'}")
  = failure (jsonError (json.UnmarshalTypeError "string" "OrgID"))
  /\ parseMessage kind_int
       (jsonText "{'OrgID':1,'ClusterName':'c','Report':'r','orgid':7}")
     = (7, "c"%string, "r"%string, None).
Proof. split; vm_compute; reflexivity. Qed.

Section NestingFacts.

Import json.

Lemma scan_app data1 : forall data2 s,
  scan s (data1 ++ data2) = s' ← scan s data1; scan s' data2.
Proof.
  induction data1 as [|c data1 IH]; intros data2 s; [reflexivity|].
  simpl. destruct (scanByte s c) as [s'|]; [apply IH|reflexivity].
Qed.

(** Where a value may begin, an opening bracket is one more open array. *)
Lemma scanByte_open (s : scanner) :
  step s = stateBeginValue \/ step s = stateBeginValueOrEmpty ->
  scanByte s "[" = pushParseState (parseArrayValue []) stateBeginValueOrEmpty (parseState s).
Proof. unfold scanByte. intros [-> | ->]; reflexivity. Qed.

(** Arrays opened one inside the other are refused from the one that
    takes the stack of the scanner past [maxNestingDepth]. *)
Lemma scan_nested_refused n : forall (s : scanner) rest,
  step s = stateBeginValue \/ step s = stateBeginValueOrEmpty ->
  maxNestingDepth < Z.of_nat (List.length (parseState s)) + Z.of_nat n ->
  Z.of_nat (List.length (parseState s)) <= maxNestingDepth ->
  scan s (repeat "["%byte n ++ rest) = None.
Proof.
  induction n as [|n IH]; intros s rest Hs Hn Hl; [lia|].
  cbn [repeat app scan]. rewrite (scanByte_open s Hs). unfold pushParseState.
  cbn [List.length].
  destruct (Z.leb_spec (Z.of_nat (S (List.length (parseState s)))) maxNestingDepth)
    as [Hle|Hgt]; [|reflexivity].
  cbn [mbind option_bind]. apply IH; cbn [step parseState List.length]; [auto|lia|lia].
Qed.

End NestingFacts.

(** A text with more than [maxNestingDepth] arrays open is refused by
    [parseMessage], whatever follows: also where the arrays are the value
    of a member the decoder would ignore. *)
Lemma parseMessage_nested_refused (k : intKind) (pre rest : list byte) s n :
  json.scan {| json.step := json.stateBeginValue; json.parseState := [] |} pre = Some s ->
  json.step s = json.stateBeginValue \/ json.step s = json.stateBeginValueOrEmpty ->
  json.maxNestingDepth < Z.of_nat (List.length (json.parseState s)) + Z.of_nat n ->
  Z.of_nat (List.length (json.parseState s)) <= json.maxNestingDepth ->
  parseMessage k (pre ++ repeat "["%byte n ++ rest) = failure (jsonError json.SyntaxError).
Proof.
  intros Hp Hs Hn Hl. apply parseMessage_decode_error.
  unfold Unmarshal, json.parse. rewrite scan_app, Hp. cbn [mbind option_bind].
  rewrite (scan_nested_refused n s rest Hs Hn Hl). reflexivity.
Qed.

Example nested_text_refused (k : intKind) (rest : list byte) :
  parseMessage k (repeat "["%byte (Z.to_nat (json.maxNestingDepth + 1)) ++ rest)
  = failure (jsonError json.SyntaxError)
  /\ parseMessage k
       (jsonText "{'OrgID':1,'ClusterName':'c','Report':'r','x':"
        ++ repeat "["%byte (Z.to_nat json.maxNestingDepth) ++ rest)
     = failure (jsonError json.SyntaxError).
Proof.
  split.
  - apply (parseMessage_nested_refused k [] rest
             {| json.step := json.stateBeginValue; json.parseState := [] |});
      [reflexivity|left; reflexivity| |]; cbn [json.parseState List.length];
      unfold json.maxNestingDepth; lia.
  - eapply (parseMessage_nested_refused k
              (jsonText "{'OrgID':1,'ClusterName':'c','Report':'r','x':") rest);
      [vm_compute; reflexivity|left; reflexivity| |]; cbn [json.parseState List.length];
      unfold json.maxNestingDepth; lia.
Qed.

(* ====================================================================== *)
(** * Further properties of the router helpers *)
(* ====================================================================== *)

Section DecimalFacts.

Lemma of_uint_acc_le d : forall acc, (acc <= Pos.of_uint_acc d acc)%positive.
Proof.
  induction d; intros acc; simpl; try apply Pos.le_refl;
    (etransitivity; [|apply IHd]); lia.
Qed.

(** The digit loop reads the digits of a number back, from any start. *)
Lemma parseUintLoop_acc d : forall acc,
  Z.pos (Pos.of_uint_acc d acc) < 2 ^ 64 ->
  strconv.parseUintLoop (NilEmpty.string_of_uint d) (Z.pos acc)
  = inl (Z.pos (Pos.of_uint_acc d acc)).
Proof.
  induction d; intros acc H; [reflexivity| | | | | | | | | |];
    cbn [NilEmpty.string_of_uint strconv.parseUintLoop Pos.of_uint_acc] in *;
    (match goal with
     | |- context [strconv.digit ?c] =>
         let v := eval vm_compute in (strconv.digit c) in
         change (strconv.digit c) with v
     end);
    cbv beta iota;
    (match goal with
     | |- context [Pos.of_uint_acc d ?a] =>
         pose proof (of_uint_acc_le d a) as L;
         replace (Z.pos acc * 10 + _) with (Z.pos a) by lia;
         destruct (Z.leb_spec (2 ^ 64) (Z.pos a)); [lia|]; apply IHd; assumption
     end).
Qed.

Lemma parseUintLoop_of_uint d :
  Z.of_N (Pos.of_uint d) < 2 ^ 64 ->
  strconv.parseUintLoop (NilEmpty.string_of_uint d) 0 = inl (Z.of_N (Pos.of_uint d)).
Proof.
  induction d; intros H; [reflexivity| | | | | | | | | |];
    cbn [NilEmpty.string_of_uint strconv.parseUintLoop Pos.of_uint] in *;
    (match goal with
     | |- context [strconv.digit ?c] =>
         let v := eval vm_compute in (strconv.digit c) in
         change (strconv.digit c) with v
     end);
    cbv beta iota; simpl Z.add; simpl Z.mul;
    try (apply IHd; assumption);
    (match goal with
     | |- context [Pos.of_uint_acc d ?a] =>
         change (strconv.parseUintLoop (NilEmpty.string_of_uint d) (Z.pos a)
                 = inl (Z.pos (Pos.of_uint_acc d a)));
         apply parseUintLoop_acc; exact H
     end).
Qed.

Lemma parseUintLoop_to_uint p :
  Z.pos p < 2 ^ 64 ->
  strconv.parseUintLoop (NilEmpty.string_of_uint (Pos.to_uint p)) 0 = inl (Z.pos p).
Proof.
  intros H. rewrite parseUintLoop_of_uint; rewrite DecimalPos.Unsigned.of_to; auto.
Qed.

(** The rendering of a positive number starts with a digit. *)
Lemma string_of_to_uint p :
  exists c rest,
    NilZero.string_of_uint (Pos.to_uint p) = String c rest
    /\ NilEmpty.string_of_uint (Pos.to_uint p) = String c rest
    /\ Ascii.eqb c "+" = false /\ Ascii.eqb c "-" = false.
Proof.
  pose proof (DecimalPos.Unsigned.to_uint_nonnil p) as H.
  destruct (Pos.to_uint p); [contradiction| | | | | | | | | |];
    simpl; eexists _, _; repeat split; reflexivity.
Qed.

(** [strconv.ParseInt] reads back what [%d] prints, for every [int64]. *)
Lemma ParseInt_FormatInt z :
  - 2 ^ 63 <= z < 2 ^ 63 -> strconv.ParseInt (strconv.FormatInt z) = inl z.
Proof.
  intros H. unfold strconv.FormatInt.
  destruct z as [|p|p]; [reflexivity| |]; simpl Z.to_int; simpl NilZero.string_of_int.
  - destruct (string_of_to_uint p) as (c & rest & E & E' & Hp & Hm).
    rewrite E. unfold strconv.ParseInt. rewrite Hp, Hm. simpl orb. cbv iota.
    unfold strconv.ParseUint. rewrite <- E', parseUintLoop_to_uint by lia.
    simpl negb. simpl andb.
    destruct (Z.leb_spec (2 ^ 63) (Z.pos p)); [lia|reflexivity].
  - destruct (string_of_to_uint p) as (c & rest & E & E' & Hp & Hm).
    unfold strconv.ParseInt. simpl Ascii.eqb. simpl orb. cbv iota.
    rewrite E. unfold strconv.ParseUint. rewrite <- E', parseUintLoop_to_uint by lia.
    simpl negb. simpl andb.
    destruct (Z.ltb_spec (2 ^ 63) (Z.pos p)); [lia|reflexivity].
Qed.

End DecimalFacts.

Section OrganizationFacts.

(** A conversion keeps a number exactly when the number is one of the
    target type. *)
Lemma convert_fits (k : intKind) n : 0 < bits k -> convert k n = n <-> fits k n = true.
Proof.
  intros Hb. unfold convert, fits.
  assert (2 ^ bits k = 2 * 2 ^ (bits k - 1)) as E.
  { rewrite <- Z.pow_succ_r by lia. f_equal. lia. }
  assert (0 < 2 ^ (bits k - 1)) as Hh by (apply Z.pow_pos_nonneg; lia).
  rewrite E. set (h := 2 ^ (bits k - 1)) in *.
  pose proof (Z.mod_pos_bound n (2 * h) ltac:(lia)) as Hm.
  pose proof (Z.div_mod n (2 * h) ltac:(lia)) as Hd.
  set (m := n mod (2 * h)) in *. set (q := n / (2 * h)) in *.
  clearbody m q h.
  assert (q <= -2 \/ q = -1 \/ q = 0 \/ 1 <= q) as Hq by lia.
  destruct (signed k); simpl.
  - destruct (Z.leb_spec h m); rewrite andb_true_iff, Z.leb_le, Z.ltb_lt;
      (split; [intros; lia|intros]); destruct Hq as [|[|[|]]]; subst; nia.
  - rewrite andb_true_iff, Z.leb_le, Z.ltb_lt.
    (split; [intros; lia|intros]); destruct Hq as [|[|[|]]]; subst; nia.
Qed.

(** X13: [GetRouterIntParam] reads back every [int64] from its decimal
    rendering: no value of the type is refused or changed. *)
Theorem GetRouterIntParam_FormatInt (request : gmap string string) paramName n :
  request !! paramName = Some (strconv.FormatInt n) ->
  - 2 ^ 63 <= n < 2 ^ 63 ->
  GetRouterIntParam request paramName = (n, None).
Proof.
  intros H Hn. unfold GetRouterIntParam, GetRouterParam. rewrite H.
  rewrite (ParseInt_FormatInt n Hn). reflexivity.
Qed.

(** X14: [readOrganizationID] accepts every positive [int64], sends
    nothing, and hands back the number converted to [types.OrgID] with no
    range check: the result is the number of the request exactly when
    that number is one of the type, and a wrapped one otherwise. *)
Theorem readOrganizationID_wraps (k : intKind) (request : gmap string string) n :
  0 < bits k ->
  request !! "organization" = Some (strconv.FormatInt n) ->
  0 < n < 2 ^ 63 ->
  readOrganizationID k request = ((convert k n, None), [])
  /\ (convert k n = n <-> fits k n = true).
Proof.
  intros Hb H Hn. split; [|apply convert_fits, Hb].
  unfold readOrganizationID, GetRouterPositiveIntParam, GetRouterIntParam, GetRouterParam.
  rewrite H. rewrite (ParseInt_FormatInt n) by lia.
  destruct (Z.leb_spec n 0); [lia|]. do 3 f_equal.
  apply (convert_fits kind_int n); [reflexivity|].
  unfold fits. simpl. rewrite andb_true_iff, Z.leb_le, Z.ltb_lt. lia.
Qed.

End OrganizationFacts.

(** The parameter -17. *)
Lemma GetRouterIntParam_FormatInt_witness :
  GetRouterIntParam {[ "organization"%string := "-17"%string ]} "organization"
  = (-17, None).
Proof.
  apply (GetRouterIntParam_FormatInt {[ "organization"%string := "-17"%string ]}
           "organization" (-17)).
  - reflexivity.
  - lia.
Defined.

(** With a 32-bit [types.OrgID], the organization 4294967297 is read as
    the organization 1. *)
Lemma readOrganizationID_wraps_witness :
  readOrganizationID kind_uint32 {[ "organization"%string := "4294967297"%string ]}
  = ((1, None), [])
  /\ (1 = 4294967297 <-> false = true).
Proof.
  apply (readOrganizationID_wraps kind_uint32
           {[ "organization"%string := "4294967297"%string ]} 4294967297).
  - reflexivity.
  - reflexivity.
  - lia.
Defined.

(** X15: when the route has the organization variable, whatever its value,
    [readOrganizationID] either succeeds and sends nothing or answers with
    status 400: the value of the request alone never leads to a 500. *)
Theorem readOrganizationID_present (k : intKind) (request : gmap string string) value :
  request !! "organization" = Some value ->
  (exists orgID, readOrganizationID k request = ((orgID, None), []))
  \/ (exists line text,
        snd (readOrganizationID k request)
        = [log_Println line; responses_Send StatusBadRequest text]
        /\ fst (fst (readOrganizationID k request)) = 0
        /\ snd (fst (readOrganizationID k request)) = Some (errorString line)).
Proof.
  intros H.
  unfold readOrganizationID, GetRouterPositiveIntParam, GetRouterIntParam, GetRouterParam.
  rewrite H. destruct (strconv.ParseInt value) as [n | e].
  - destruct (n <=? 0); [right|left]; eauto.
  - right. eauto.
Qed.

(** The organization 0. *)
Lemma readOrganizationID_present_witness :
  (exists orgID,
     readOrganizationID kind_int {[ "organization"%string := "0"%string ]}
     = ((orgID, None), []))
  \/ (exists line text,
        snd (readOrganizationID kind_int {[ "organization"%string := "0"%string ]})
        = [log_Println line; responses_Send StatusBadRequest text]
        /\ fst (fst (readOrganizationID kind_int {[ "organization"%string := "0"%string ]}))
           = 0
        /\ snd (fst (readOrganizationID kind_int {[ "organization"%string := "0"%string ]}))
           = Some (errorString line)).
Proof.
  apply (readOrganizationID_present kind_int {[ "organization"%string := "0"%string ]} "0").
  reflexivity.
Defined.

(* ====================================================================== *)
(** * Properties of the configuration path *)
(* ====================================================================== *)

Section PathFacts.

Import aggregator.

Implicit Types (p d b : list ascii) (i j n : nat).

Lemma string_of_list_ascii_app p1 p2 :
  string_of_list_ascii (p1 ++ p2) = string_of_list_ascii p1 +:+ string_of_list_ascii p2.
Proof. induction p1 as [|c p1 IH]; simpl; [reflexivity|]. rewrite IH. reflexivity. Qed.

Lemma list_ascii_of_string_app s1 s2 :
  list_ascii_of_string (s1 +:+ s2) = list_ascii_of_string s1 ++ list_ascii_of_string s2.
Proof. induction s1 as [|c s1 IH]; simpl; [reflexivity|]. rewrite IH. reflexivity. Qed.

Lemma length_list_ascii_of_string s :
  List.length (list_ascii_of_string s) = String.length s.
Proof. induction s as [|c s IH]; simpl; [reflexivity|]. rewrite IH. reflexivity. Qed.

Lemma splitIndex_le p i : (splitIndex p i <= i)%nat.
Proof.
  induction i as [|j IH]; simpl; [lia|].
  destruct (p !! j) as [c|]; [destruct (IsPathSeparator c)|]; lia.
Qed.

(** From the index on there is no separator, up to where the walk began. *)
Lemma splitIndex_after p i j c :
  (splitIndex p i <= j < i)%nat -> p !! j = Some c -> IsPathSeparator c = false.
Proof.
  induction i as [|i' IH]; simpl; [lia|].
  intros [H1 H2] L. destruct (p !! i') as [c'|] eqn:E.
  - destruct (IsPathSeparator c') eqn:Hs; [lia|].
    destruct (decide (j = i')) as [->|]; [congruence|]. apply IH; [lia|assumption].
  - destruct (decide (j = i')) as [->|]; [congruence|]. apply IH; [lia|assumption].
Qed.

(** Just before the index there is a separator, unless the index is 0. *)
Lemma splitIndex_before p i j :
  (i <= List.length p)%nat -> splitIndex p i = S j ->
  exists c, p !! j = Some c /\ IsPathSeparator c = true.
Proof.
  induction i as [|i' IH]; simpl; [discriminate|].
  intros Hi. destruct (p !! i') as [c'|] eqn:E.
  - destruct (IsPathSeparator c') eqn:Hs.
    + intros [= <-]. eauto.
    + intros H. apply IH; [lia|assumption].
  - apply lookup_ge_None in E. lia.
Qed.

Lemma separatorFree_drop p :
  separatorFree (drop (splitIndex p (List.length p)) p).
Proof.
  apply Forall_lookup. intros j c L. rewrite lookup_drop in L.
  apply (splitIndex_after p (List.length p) (splitIndex p (List.length p) + j)); [|assumption].
  apply lookup_lt_Some in L. lia.
Qed.

Lemma directoryLike_take p :
  directoryLike (take (splitIndex p (List.length p)) p).
Proof.
  destruct (splitIndex p (List.length p)) as [|j] eqn:E; [left; reflexivity|].
  right. destruct (splitIndex_before p _ j (le_n _) E) as [c [L Hs]].
  exists (take j p), c. split; [|assumption].
  erewrite take_S_r by eassumption. reflexivity.
Qed.

(** What [filepath.Split] does to a path that is spelled as a directory
    and a base name. *)
Lemma splitIndex_app d b n :
  (n <= List.length b)%nat -> separatorFree b ->
  splitIndex (d ++ b) (List.length d + n) = splitIndex (d ++ b) (List.length d).
Proof.
  intros Hn Hb. induction n as [|n IH]; [rewrite Nat.add_0_r; reflexivity|].
  replace (List.length d + S n)%nat with (S (List.length d + n)) by lia. simpl.
  rewrite lookup_app_r by lia.
  replace (List.length d + n - List.length d)%nat with n by lia.
  destruct (b !! n) as [c|] eqn:E.
  - rewrite (proj1 (Forall_lookup _ _) Hb n c E). apply IH. lia.
  - apply lookup_ge_None in E. lia.
Qed.

Lemma splitIndex_directory d b :
  directoryLike d -> splitIndex (d ++ b) (List.length d) = List.length d.
Proof.
  intros [->|[q [c [-> Hs]]]]; [reflexivity|].
  rewrite length_app. simpl. replace (List.length q + 1)%nat with (S (List.length q)) by lia.
  simpl. rewrite <- app_assoc. rewrite lookup_app_r by lia.
  replace (List.length q - List.length q)%nat with 0%nat by lia. simpl.
  rewrite Hs. reflexivity.
Qed.

Lemma Split_spelled d b :
  directoryLike d -> separatorFree b ->
  Split (string_of_list_ascii (d ++ b)) = (string_of_list_ascii d, string_of_list_ascii b).
Proof.
  intros Hd Hb. unfold Split. rewrite list_ascii_of_string_of_list_ascii.
  rewrite length_app, splitIndex_app, splitIndex_directory by (assumption || lia).
  rewrite take_app_length, drop_app_length. reflexivity.
Qed.

Lemma length_string_of_list_ascii p :
  String.length (string_of_list_ascii p) = List.length p.
Proof. induction p as [|c p IH]; simpl; [reflexivity|]. rewrite IH. reflexivity. Qed.

(** [strings.TrimSuffix] takes off a suffix that is there. *)
Lemma TrimSuffix_app p1 p2 :
  TrimSuffix (string_of_list_ascii (p1 ++ p2)) (string_of_list_ascii p2)
  = string_of_list_ascii p1.
Proof.
  unfold TrimSuffix, HasSuffix.
  rewrite !length_string_of_list_ascii, list_ascii_of_string_of_list_ascii, length_app.
  replace (List.length p1 + List.length p2 - List.length p2)%nat with (List.length p1) by lia.
  rewrite drop_app_length, take_app_length, String.eqb_refl.
  replace (List.length p2 <=? List.length p1 + List.length p2)%nat with true
    by (symmetry; apply Nat.leb_le; lia).
  reflexivity.
Qed.

(** The extension starts at a dot and holds no other dot and no separator. *)
Lemma extIndex_Some p i j :
  extIndex p i = Some j ->
  (j < i)%nat /\ p !! j = Some "."%char
  /\ forall j' c, (j < j' < i)%nat -> p !! j' = Some c ->
                  IsPathSeparator c = false /\ c <> "."%char.
Proof.
  induction i as [|i' IH]; simpl; [discriminate|].
  destruct (p !! i') as [c'|] eqn:E.
  - destruct (IsPathSeparator c') eqn:Hs; [discriminate|].
    destruct (Ascii.eqb c' ".") eqn:Hd.
    + intros [= <-]. apply Ascii.eqb_eq in Hd. subst c'.
      split; [lia|]. split; [assumption|]. intros; lia.
    + intros H. destruct (IH H) as [H1 [H2 H3]].
      split; [lia|]. split; [assumption|]. intros j' c Hj L.
      destruct (decide (j' = i')) as [->|]; [|apply (H3 j' c); [lia|assumption]].
      rewrite E in L. injection L as <-. split; [assumption|].
      intros ->. discriminate.
  - intros H. destruct (IH H) as [H1 [H2 H3]].
    split; [lia|]. split; [assumption|]. intros j' c Hj L.
    destruct (decide (j' = i')) as [->|]; [congruence|apply (H3 j' c); [lia|assumption]].
Qed.

(** Inside the base name the walk of [filepath.Ext] does not see the
    directory. *)
Lemma extIndex_app d b n :
  (n <= List.length b)%nat -> separatorFree b -> directoryLike d ->
  extIndex (d ++ b) (List.length d + n)
  = (fun j => (List.length d + j)%nat) <$> extIndex b n.
Proof.
  intros Hn Hb Hd. induction n as [|n IH].
  - rewrite Nat.add_0_r. simpl.
    destruct Hd as [->|[q [c [-> Hs]]]]; [reflexivity|].
    rewrite length_app. simpl.
    replace (List.length q + 1)%nat with (S (List.length q)) by lia. simpl.
    rewrite <- app_assoc, lookup_app_r by lia.
    replace (List.length q - List.length q)%nat with 0%nat by lia. simpl.
    rewrite Hs. reflexivity.
  - replace (List.length d + S n)%nat with (S (List.length d + n)) by lia. simpl.
    rewrite lookup_app_r by lia.
    replace (List.length d + n - List.length d)%nat with n by lia.
    destruct (b !! n) as [c|] eqn:E.
    + rewrite (proj1 (Forall_lookup _ _) Hb n c E).
      destruct (Ascii.eqb c "."); [reflexivity|]. apply IH. lia.
    + apply lookup_ge_None in E. lia.
Qed.

(** The extension of a path is that of its base name. *)
Lemma Ext_Split path : Ext (snd (Split path)) = Ext path.
Proof.
  unfold Split. simpl. set (p := list_ascii_of_string path).
  set (i := splitIndex p (List.length p)).
  pose proof (splitIndex_le p (List.length p)) as Hi. fold i in Hi.
  unfold Ext. fold p. rewrite list_ascii_of_string_of_list_ascii.
  rewrite <- (take_drop i p) at 3 4.
  rewrite length_app.
  assert (List.length (take i p) = i) as Ht by (rewrite length_take; lia).
  rewrite (extIndex_app (take i p) (drop i p) (List.length (drop i p)) (le_n _)
             (separatorFree_drop p) (directoryLike_take p)).
  destruct (extIndex (drop i p) (List.length (drop i p))) as [j|]; simpl; [|reflexivity].
  rewrite Ht, drop_drop. reflexivity.
Qed.

(** A path is what is left of it without its extension, and its extension. *)
Lemma TrimSuffix_Ext path : TrimSuffix path (Ext path) +:+ Ext path = path.
Proof.
  rewrite <- (string_of_list_ascii_of_string path) at 1 4.
  unfold Ext. set (p := list_ascii_of_string path).
  destruct (extIndex p (List.length p)) as [j|] eqn:E.
  - rewrite <- (take_drop j p) at 1. rewrite TrimSuffix_app.
    rewrite <- string_of_list_ascii_app, take_drop. reflexivity.
  - rewrite <- (app_nil_r p) at 1.
    change EmptyString with (string_of_list_ascii []).
    rewrite TrimSuffix_app, <- string_of_list_ascii_app, app_nil_r. reflexivity.
Qed.

Lemma extIndex_S p j :
  extIndex p (S j) =
  match p !! j with
  | Some c =>
      if IsPathSeparator c then None
      else if Ascii.eqb c "." then Some j
      else extIndex p j
  | None => extIndex p j
  end.
Proof. reflexivity. Qed.

(** The extension of a base name that ends in a dot and characters that
    are neither dots nor separators. *)
Lemma extIndex_extension q e n :
  (n <= List.length e)%nat -> extensionFree e ->
  extIndex (q ++ "."%char :: e) (S (List.length q) + n) = Some (List.length q).
Proof.
  intros Hn He. induction n as [|n IH].
  - rewrite Nat.add_0_r. simpl. rewrite lookup_app_r by lia.
    replace (List.length q - List.length q)%nat with 0%nat by lia. reflexivity.
  - replace (S (List.length q) + S n)%nat with (S (S (List.length q) + n)) by lia.
    rewrite extIndex_S, lookup_app_r by lia.
    replace (S (List.length q) + n - List.length q)%nat with (S n) by lia.
    change (("."%char :: e) !! S n) with (e !! n).
    destruct (e !! n) as [c|] eqn:E.
    + destruct (proj1 (Forall_lookup _ _) He n c E) as [Hs Hd]. rewrite Hs.
      replace (Ascii.eqb c ".") with false
        by (symmetry; apply Ascii.eqb_neq; assumption).
      apply IH. lia.
    + apply lookup_ge_None in E. lia.
Qed.

Lemma Ext_extension q e :
  extensionFree e ->
  Ext (string_of_list_ascii (q ++ "."%char :: e)) = string_of_list_ascii ("."%char :: e).
Proof.
  intros He. unfold Ext. rewrite list_ascii_of_string_of_list_ascii, length_app.
  simpl List.length.
  replace (List.length q + S (List.length e))%nat with (S (List.length q) + List.length e)%nat
    by lia.
  rewrite extIndex_extension by (assumption || lia).
  rewrite drop_app_length. reflexivity.
Qed.

(** A base name without a dot has no extension. *)
Lemma extIndex_none b n : extensionFree b -> extIndex b n = None.
Proof.
  intros Hb. induction n as [|n IH]; simpl; [reflexivity|].
  destruct (b !! n) as [c|] eqn:E; [|assumption].
  destruct (proj1 (Forall_lookup _ _) Hb n c E) as [Hs Hd]. rewrite Hs.
  replace (Ascii.eqb c ".") with false by (symmetry; apply Ascii.eqb_neq; assumption).
  assumption.
Qed.

End PathFacts.

(* ====================================================================== *)
(** * Properties of package main *)
(* ====================================================================== *)

Section MainFacts.

Import aggregator.

Context {storageModel : consumer.StorageModel} {saramaModel : consumer.SaramaModel}
  {mainModel : MainModel}.
Variable k : intKind.

Ltac run_main :=
  unfold mbind, P_bind, mret, P_ret, Fatal, note, os_Exit, panic, onStorage, onBroker,
    inConsumer, viper_Sub, GetString, viper, viper_ReadInConfig in *;
  simpl in *.

(** The innermost scrutinee first. *)
Ltac split_case :=
  match goal with
  | |- context [match ?x with _ => _ end] =>
      lazymatch x with
      | context [match _ with _ => _ end] => fail
      | _ => destruct x eqn:?; simpl in *
      end
  end.

Lemma storageCloses_app (l1 l2 : list mainEvent) :
  storageCloses (l1 ++ l2) = storageCloses l1 ++ storageCloses l2.
Proof. apply omap_app. Qed.

Lemma loadBrokerConfiguration_ends (s : process) :
  (exists cfg, loadBrokerConfiguration s = (returns cfg, s)) \/
  loadBrokerConfiguration s = (panicking (runtimePanic consumer.nilDereference), s).
Proof.
  unfold loadBrokerConfiguration. run_main.
  destruct (config s !! "broker"); simpl; eauto.
Qed.

Lemma produceMessages_ends (s : process) : endsWithoutError (fst (produceMessages s)).
Proof.
  unfold produceMessages. unfold mbind at 1, P_bind at 1.
  destruct (loadBrokerConfiguration_ends s) as [[cfg ->] | ->]; simpl; auto.
  run_main. repeat split_case; simpl; auto.
Qed.

Lemma loadStorageConfiguration_ends (s : process) :
  loadStorageConfiguration s =
  match config s !! "storage" with
  | Some table =>
      (returns {| Driver := default EmptyString (table !! "driver");
                  DataSource := default EmptyString (table !! "datasource") |}, s)
  | None => (panicking (runtimePanic consumer.nilDereference), s)
  end.
Proof.
  unfold loadStorageConfiguration. run_main.
  destruct (config s !! "storage"); reflexivity.
Qed.

Lemma loadServerConfiguration_ends (s : process) :
  (exists cfg, loadServerConfiguration s = (returns cfg, s)) \/
  loadServerConfiguration s = (panicking (runtimePanic consumer.nilDereference), s).
Proof.
  unfold loadServerConfiguration. run_main.
  destruct (config s !! "server"); simpl; eauto.
Qed.

Ltac same_closes :=
  simpl; rewrite ?storageCloses_app; simpl; rewrite ?app_nil_r; auto.

Lemma consumer_Start_ends n (c : consumer.Impl) (s : process) :
  match consumer_Start k n c s with
  | (returns _, _) | (exits _, _) => False
  | (_, s') => storageCloses (events s') = storageCloses (events s)
  end.
Proof.
  unfold consumer_Start. simpl.
  destruct (consumer.Start k n c (surroundings s)) as [[ | | | err] w] eqn:E;
    try same_closes.
  exfalso. apply (Start_never_returns k n c (surroundings s) err). rewrite E. reflexivity.
Qed.

Lemma consumer_Close_ends (c : consumer.Impl) (s : process) :
  match consumer_Close c s with
  | (exits _, _) | (stillRunning, _) => False
  | (_, s') => storageCloses (events s') = storageCloses (events s)
  end.
Proof.
  unfold consumer_Close. run_main.
  destruct (consumer.Close c _) as [[] w]; same_closes.
Qed.

Lemma deferring_storage_Close {A : Type} (storage : consumer.storage_Storage)
  (body : P A) (s : process) :
  match body s with
  | (returns a, s1) =>
      exists s', deferring (onStorage (call_storage_Close storage)
                              (fun db => (tt, storage_Close storage db))) body s
                 = (returns a, s')
                 /\ events s' = events s1 ++ [call_storage_Close storage]
  | (panicking c, s1) =>
      exists s', deferring (onStorage (call_storage_Close storage)
                              (fun db => (tt, storage_Close storage db))) body s
                 = (panicking c, s')
                 /\ events s' = events s1 ++ [call_storage_Close storage]
  | r => deferring (onStorage (call_storage_Close storage)
                      (fun db => (tt, storage_Close storage db))) body s = r
  end.
Proof.
  unfold deferring, onStorage.
  destruct (body s) as [[a | code | c | ] s1]; simpl; eauto.
Qed.

Lemma startConsumer_body n (storage : consumer.storage_Storage) (s : process) :
  match
    (brokerCfg ← loadBrokerConfiguration;
     _ ← note (call_consumer_New brokerCfg storage);
     r ← inConsumer (consumer.New brokerCfg storage);
     match r with
     | (_, Some err) => _ ← Fatal err; mret (Some err)
     | (None, None) => panic (runtimePanic consumer.nilDereference)
     | (Some consumerInstance, None) =>
         deferring (consumer_Close consumerInstance)
           (err ← consumer_Start k n consumerInstance;
            match err with
            | Some e => _ ← Fatal e; mret (Some e)
            | None => mret None
            end)
     end) s
  with
  | (returns _, _) => False
  | (exits code, s') => code = 1 /\ storageCloses (events s') = storageCloses (events s)
  | (_, s') => storageCloses (events s') = storageCloses (events s)
  end.
Proof.
  unfold mbind at 1, P_bind at 1.
  destruct (loadBrokerConfiguration_ends s) as [[cfg ->] | ->]; simpl; auto.
  unfold mbind at 1, P_bind at 1, note. simpl.
  unfold mbind at 1, P_bind at 1, inConsumer. simpl.
  destruct (consumer.New cfg storage (surroundings s)) as [[[c err] | p] w]; simpl;
    [|same_closes].
  destruct c as [c|], err as [err|]; try (run_main; same_closes).
  unfold deferring.
  match goal with
  | |- context [consumer_Start k n c ?s0] =>
      pose proof (consumer_Start_ends n c s0) as Hs;
      destruct (consumer_Start k n c s0) as [[[e|] | code | cause | ] s1]; try easy
  end.
  - pose proof (consumer_Close_ends c s1) as Hc.
    destruct (consumer_Close c s1) as [[[] | code | cause' | ] s2]; try easy;
      rewrite Hc, Hs; same_closes.
  - rewrite Hs. same_closes.
Qed.

(** X4: once [startConsumer] has opened the storage, it never returns; when
    it ends the process through [log.Fatal] (status 1) the deferred
    [storage.Close] has not run, when it panics the storage has been closed
    exactly once, and while [Start] runs the storage stays open. *)
Theorem startConsumer_storage_Close n (s : process) table storage db' :
  config s !! "storage" = Some table ->
  storage_New {| Driver := default EmptyString (table !! "driver");
                 DataSource := default EmptyString (table !! "datasource") |}
    (consumer.db (surroundings s)) = (inl storage, db') ->
  match startConsumer k n s with
  | (returns _, _) => False
  | (exits code, s') =>
      code = 1 /\ storageCloses (events s') = storageCloses (events s)
  | (panicking _, s') =>
      storageCloses (events s') = storageCloses (events s) ++ [storage]
  | (stillRunning, s') => storageCloses (events s') = storageCloses (events s)
  end.
Proof.
  intros Ht Hn. unfold startConsumer.
  unfold mbind at 1, P_bind at 1. rewrite loadStorageConfiguration_ends, Ht.
  unfold mbind at 1, P_bind at 1. unfold onStorage at 1. rewrite Hn.
  match goal with
  | |- context [deferring ?d ?body ?s0] =>
      pose proof (deferring_storage_Close storage body s0) as Hd;
      pose proof (startConsumer_body n storage s0) as Hb; simpl in Hb;
      destruct (body s0) as [[r | code | c | ] s1]
  end.
  - destruct Hb.
  - rewrite Hd. destruct Hb as [-> Hb]. split; [reflexivity|].
    rewrite Hb. same_closes.
  - destruct Hd as (s' & -> & He). rewrite He, storageCloses_app, Hb. same_closes.
  - rewrite Hd, Hb. same_closes.
Qed.

Lemma startConsumer_ends n (s : process) :
  match startConsumer k n s with
  | (returns _, _) => False
  | (exits code, _) => code = 1
  | _ => True
  end.
Proof.
  unfold startConsumer.
  unfold mbind at 1, P_bind at 1. rewrite loadStorageConfiguration_ends.
  destruct (config s !! "storage") as [table|]; [|exact I].
  unfold mbind at 1, P_bind at 1. unfold onStorage at 1.
  destruct (storage_New _ _) as [[storage | err] db']; [|reflexivity].
  match goal with
  | |- context [deferring ?d ?body ?s0] =>
      pose proof (deferring_storage_Close storage body s0) as Hd;
      pose proof (startConsumer_body n storage s0) as Hb; simpl in Hb;
      destruct (body s0) as [[r | code | c | ] s1]
  end.
  - destruct Hb.
  - rewrite Hd. apply Hb.
  - destruct Hd as (s' & -> & _). exact I.
  - rewrite Hd. exact I.
Qed.

Lemma startServer_body (storage : consumer.storage_Storage) (s : process) :
  match
    (serverCfg ← loadServerConfiguration;
     _ ← note (call_server_New serverCfg storage);
     r ← onStorage call_server_Start (server_Start (server_New serverCfg storage));
     match r with
     | None => fun s => (stillRunning, s)
     | Some (Some e) => _ ← Fatal e; mret (Some e)
     | Some None => mret None
     end) s
  with
  | (returns r, s') =>
      r = None /\ storageCloses (events s') = storageCloses (events s)
  | (exits code, s') => code = 1 /\ storageCloses (events s') = storageCloses (events s)
  | (_, s') => storageCloses (events s') = storageCloses (events s)
  end.
Proof.
  unfold mbind at 1, P_bind at 1.
  destruct (loadServerConfiguration_ends s) as [[cfg ->] | ->]; simpl; auto.
  run_main. destruct (server_Start _ _) as [[[e|]|] db']; simpl; same_closes.
Qed.

Lemma startServer_ends (s : process) :
  match startServer s with
  | (returns r, _) => r = None
  | (exits code, _) => code = 1
  | _ => True
  end.
Proof.
  unfold startServer.
  unfold mbind at 1, P_bind at 1. rewrite loadStorageConfiguration_ends.
  destruct (config s !! "storage") as [table|]; [|exact I].
  unfold mbind at 1, P_bind at 1. unfold onStorage at 1.
  destruct (storage_New _ _) as [[storage | err] db']; [|reflexivity].
  match goal with
  | |- context [deferring ?d ?body ?s0] =>
      pose proof (deferring_storage_Close storage body s0) as Hd;
      pose proof (startServer_body storage s0) as Hb; simpl in Hb;
      destruct (body s0) as [[r | code | c | ] s1]
  end.
  - destruct Hd as (s' & -> & _). apply Hb.
  - rewrite Hd. apply Hb.
  - destruct Hd as (s' & -> & _). exact I.
  - rewrite Hd. exact I.
Qed.

(** X5: once [startServer] has opened the storage, it returns only nil, and
    then (and when it panics) the storage has been closed exactly once;
    when [log.Fatal] ends the process (status 1) the deferred
    [storage.Close] has not run. *)
Theorem startServer_storage_Close (s : process) table storage db' :
  config s !! "storage" = Some table ->
  storage_New {| Driver := default EmptyString (table !! "driver");
                 DataSource := default EmptyString (table !! "datasource") |}
    (consumer.db (surroundings s)) = (inl storage, db') ->
  match startServer s with
  | (returns r, s') =>
      r = None /\ storageCloses (events s') = storageCloses (events s) ++ [storage]
  | (exits code, s') =>
      code = 1 /\ storageCloses (events s') = storageCloses (events s)
  | (panicking _, s') =>
      storageCloses (events s') = storageCloses (events s) ++ [storage]
  | (stillRunning, s') => storageCloses (events s') = storageCloses (events s)
  end.
Proof.
  intros Ht Hn. unfold startServer.
  unfold mbind at 1, P_bind at 1. rewrite loadStorageConfiguration_ends, Ht.
  unfold mbind at 1, P_bind at 1. unfold onStorage at 1. rewrite Hn.
  match goal with
  | |- context [deferring ?d ?body ?s0] =>
      pose proof (deferring_storage_Close storage body s0) as Hd;
      pose proof (startServer_body storage s0) as Hb; simpl in Hb;
      destruct (body s0) as [[r | code | c | ] s1]
  end.
  - destruct Hd as (s' & -> & He). destruct Hb as [-> Hb]. split; [reflexivity|].
    rewrite He, storageCloses_app, Hb. same_closes.
  - rewrite Hd. destruct Hb as [-> Hb]. split; [reflexivity|].
    rewrite Hb. same_closes.
  - destruct Hd as (s' & -> & He). rewrite He, storageCloses_app, Hb. same_closes.
  - rewrite Hd, Hb. same_closes.
Qed.

Lemma startService_ends n (produceMessagesCmd startConsumerCmd startServerCmd : bool)
  (s : process) :
  match fst (startService k n produceMessagesCmd startConsumerCmd startServerCmd s) with
  | returns code =>
      (code = ExitStatusOK /\
       (produceMessagesCmd = true \/ startConsumerCmd = false /\ startServerCmd = true)) \/
      (code = ExitStatusNoCommand /\
       produceMessagesCmd = false /\ startConsumerCmd = false /\ startServerCmd = false)
  | exits code => code = 1
  | _ => True
  end.
Proof.
  unfold startService.
  destruct produceMessagesCmd; [|destruct startConsumerCmd; [|destruct startServerCmd]].
  - unfold mbind, P_bind. pose proof (produceMessages_ends s) as H.
    destruct (produceMessages s) as [[[e|] | code | c | ] s1]; simpl in *; tauto.
  - unfold mbind, P_bind. pose proof (startConsumer_ends n s) as H.
    destruct (startConsumer k n s) as [[[e|] | code | c | ] s1]; simpl in *; tauto.
  - unfold mbind, P_bind. pose proof (startServer_ends s) as H.
    destruct (startServer s) as [[[e|] | code | c | ] s1]; simpl in *;
      try discriminate; tauto.
  - simpl. auto.
Qed.

(** X6: [startService] never returns [ExitStatusProducerError],
    [ExitStatusConsumerError] or [ExitStatusServerError]: the error branches
    are behind [log.Fatal]. It returns [ExitStatusOK], and that not in
    consumer mode, or [ExitStatusNoCommand] when no flag is set. *)
Theorem startService_status n (produceMessagesCmd startConsumerCmd startServerCmd : bool)
  (s : process) code :
  fst (startService k n produceMessagesCmd startConsumerCmd startServerCmd s)
  = returns code ->
  (code = ExitStatusOK /\
   (produceMessagesCmd = true \/ startConsumerCmd = false /\ startServerCmd = true)) \/
  (code = ExitStatusNoCommand /\
   produceMessagesCmd = false /\ startConsumerCmd = false /\ startServerCmd = false).
Proof.
  intros H.
  pose proof (startService_ends n produceMessagesCmd startConsumerCmd startServerCmd s) as He.
  rewrite H in He. exact He.
Qed.

Lemma main_ends n (produce consumer server : bool) (s : process) :
  match fst (main k n produce consumer server s) with
  | returns _ => False
  | exits code =>
      (code = ExitStatusOK /\ (produce = true \/ consumer = false /\ server = true))
      \/ code = 1
  | _ => True
  end.
Proof.
  unfold main. unfold mbind at 1, P_bind at 1.
  destruct (loadConfiguration "config" s) as [[[] | code' | c | ] s1] eqn:E; simpl; auto.
  - unfold mbind, P_bind.
    pose proof (startService_ends n produce consumer server s1) as He.
    destruct (startService k n produce consumer server s1) as [[code | code' | c | ] s2];
      simpl in *; auto.
    destruct He as [[-> Hm] | [-> _]]; auto.
  - revert E. unfold loadConfiguration. run_main.
    repeat split_case; discriminate.
Qed.

(** X7: once [flag.Parse] has set the three flags, the process ends [main]
    with status 0, 1 or 2 only. Status 0 is that of [os.Exit] with
    [ExitStatusOK], in producer or server mode only; status 1 is that of
    [os.Exit], with [ExitStatusNoCommand] or inside [log.Fatal]; status 2
    is that of a panic only: [ExitStatusProducerError] is never handed to
    [os.Exit], and neither are the statuses 3 and 4. *)
Theorem main_exit_status n (produce consumer server : bool) (s : process) status :
  processStatus (fst (main k n produce consumer server s)) = Some status ->
  (status = 0 /\ fst (main k n produce consumer server s) = exits ExitStatusOK
   /\ (produce = true \/ consumer = false /\ server = true))
  \/ (status = 1 /\ fst (main k n produce consumer server s) = exits 1)
  \/ (status = 2
      /\ exists c, fst (main k n produce consumer server s) = panicking c).
Proof.
  pose proof (main_ends n produce consumer server s) as H.
  destruct (fst (main k n produce consumer server s)) as [[] | code | c | ];
    simpl; intros [= <-].
  - destruct H.
  - destruct H as [[-> Hm] | ->]; [left|right; left]; auto.
  - right. right. eauto.
Qed.

Lemma Split_join (path : string) : fst (Split path) +:+ snd (Split path) = path.
Proof.
  unfold Split. simpl.
  rewrite <- string_of_list_ascii_app, take_drop. apply string_of_list_ascii_of_string.
Qed.

Lemma separatorFree_TrimSuffix (base suffix : string) :
  separatorFree (list_ascii_of_string base) ->
  separatorFree (list_ascii_of_string (TrimSuffix base suffix)).
Proof.
  intros H. unfold TrimSuffix. destruct (HasSuffix base suffix); [|exact H].
  rewrite list_ascii_of_string_of_list_ascii. apply Forall_take, H.
Qed.

(** What [loadConfiguration] tells viper. *)
Lemma loadConfiguration_viperCalls (defaultConfigFile : string) (s : process) :
  viperCalls (snd (loadConfiguration defaultConfigFile s)) =
  viperCalls s ++
  match LookupEnv "INSIGHTS_RESULTS_AGGREGATOR_CONFIG_FILE" with
  | Some configFile =>
      [SetConfigName (TrimSuffix (snd (Split configFile)) (Ext (snd (Split configFile))));
       AddConfigPath (fst (Split configFile))]
  | None => [SetConfigName defaultConfigFile; AddConfigPath "."]
  end.
Proof.
  unfold loadConfiguration.
  destruct (LookupEnv _) as [configFile|]; [destruct (Split configFile) as [d b]|];
    run_main; destruct (ReadInConfig _); simpl; rewrite <- app_assoc; reflexivity.
Qed.

(** X8: with the environment variable set, viper is given a name and a
    directory that spell the variable back once the extension is put in
    its place: the directory is empty or ends in a separator, the name has
    no separator, and directory, name and extension make up the value. *)
Theorem loadConfiguration_location (defaultConfigFile configFile : string) (s : process) :
  LookupEnv "INSIGHTS_RESULTS_AGGREGATOR_CONFIG_FILE" = Some configFile ->
  exists directory file,
    viperCalls (snd (loadConfiguration defaultConfigFile s))
    = viperCalls s ++ [SetConfigName file; AddConfigPath directory]
    /\ directory +:+ file +:+ Ext configFile = configFile
    /\ directoryLike (list_ascii_of_string directory)
    /\ separatorFree (list_ascii_of_string file).
Proof.
  intros H. rewrite loadConfiguration_viperCalls, H.
  eexists _, _. split; [reflexivity|]. split; [|split].
  - rewrite <- (Ext_Split configFile), TrimSuffix_Ext. apply Split_join.
  - unfold Split. simpl. rewrite list_ascii_of_string_of_list_ascii.
    apply directoryLike_take.
  - apply separatorFree_TrimSuffix. unfold Split. simpl.
    rewrite list_ascii_of_string_of_list_ascii. apply separatorFree_drop.
Qed.

(** X9: for a path made of a directory part, a stem and an extension after
    the last dot, viper is told to look for the stem in the directory;
    the stem may hold dots and may be empty (a file such as .env gives
    the empty name). *)
Theorem loadConfiguration_name (defaultConfigFile : string) (s : process)
  (directory stem extension : list ascii) :
  directoryLike directory -> separatorFree stem -> extensionFree extension ->
  LookupEnv "INSIGHTS_RESULTS_AGGREGATOR_CONFIG_FILE"
  = Some (string_of_list_ascii (directory ++ stem ++ "."%char :: extension)) ->
  viperCalls (snd (loadConfiguration defaultConfigFile s))
  = viperCalls s ++ [SetConfigName (string_of_list_ascii stem);
                     AddConfigPath (string_of_list_ascii directory)].
Proof.
  intros Hd Hs He H. rewrite loadConfiguration_viperCalls, H.
  assert (separatorFree (stem ++ "."%char :: extension)) as Hb.
  { apply Forall_app. split; [exact Hs|]. constructor; [reflexivity|].
    eapply Forall_impl; [exact He|]. intros c [Hc _]. exact Hc. }
  rewrite (Split_spelled _ _ Hd Hb). simpl.
  rewrite (Ext_extension _ _ He), TrimSuffix_app. reflexivity.
Qed.

End MainFacts.

(** An unknown topic: the storage is opened, [New] fails, [log.Fatal] ends
    the process and the storage is not closed. *)
Lemma startConsumer_storage_Close_witness :
  exists s',
    @aggregator.startConsumer fixedStorage scriptedSarama
      (aggregator.plannedMain aggregator.goodPlan) kind_int 3
      (aggregator.configuredProcess unknownTopic) = (aggregator.exits 1, s')
    /\ aggregator.storageCloses (aggregator.events s') = [].
Proof.
  generalize (@startConsumer_storage_Close fixedStorage scriptedSarama
                (aggregator.plannedMain aggregator.goodPlan) kind_int 3
                (aggregator.configuredProcess unknownTopic) _ None _ eq_refl eq_refl).
  vm_compute. intros [_ H]. eexists. split; [reflexivity | exact H].
Defined.

(** A server that stops without an error: [startServer] returns nil and the
    storage has been closed. *)
Lemma startServer_storage_Close_witness :
  exists s',
    @aggregator.startServer fixedStorage scriptedSarama
      (aggregator.plannedMain aggregator.goodPlan)
      (aggregator.configuredProcess testScript) = (aggregator.returns None, s')
    /\ aggregator.storageCloses (aggregator.events s') = [None].
Proof.
  generalize (@startServer_storage_Close fixedStorage scriptedSarama
                (aggregator.plannedMain aggregator.goodPlan)
                (aggregator.configuredProcess testScript) _ None _ eq_refl eq_refl).
  vm_compute. intros [_ H]. eexists. split; [reflexivity | exact H].
Defined.

(** Producer mode with a producer that works: the status is [ExitStatusOK]. *)
Lemma startService_status_witness :
  (aggregator.ExitStatusOK = aggregator.ExitStatusOK /\
   (true = true \/ false = false /\ false = true)) \/
  (aggregator.ExitStatusOK = aggregator.ExitStatusNoCommand /\
   true = false /\ false = false /\ false = false).
Proof.
  apply (@startService_status fixedStorage scriptedSarama
           (aggregator.plannedMain aggregator.goodPlan) kind_int 3 true false false
           (aggregator.configuredProcess testScript) aggregator.ExitStatusOK).
  reflexivity.
Defined.

(** Consumer mode on a subscription whose channel has been closed: the
    receive yields nil, [ProcessMessage] dereferences it, and the process
    ends with the status of a panic. *)
Lemma main_exit_status_witness :
  (2 = 0 /\ fst (@aggregator.main fixedStorage scriptedSarama
                  (aggregator.plannedMain aggregator.goodPlan) kind_int 3 false true false
                  (aggregator.freshProcess aggregator.goodPlan closedSubscription))
            = aggregator.exits aggregator.ExitStatusOK
   /\ (false = true \/ true = false /\ false = true))
  \/ (2 = 1 /\ fst (@aggregator.main fixedStorage scriptedSarama
                      (aggregator.plannedMain aggregator.goodPlan) kind_int 3 false true false
                      (aggregator.freshProcess aggregator.goodPlan closedSubscription))
                = aggregator.exits 1)
  \/ (2 = 2
      /\ exists c, fst (@aggregator.main fixedStorage scriptedSarama
                          (aggregator.plannedMain aggregator.goodPlan) kind_int 3
                          false true false
                          (aggregator.freshProcess aggregator.goodPlan closedSubscription))
                   = aggregator.panicking c).
Proof.
  apply (@main_exit_status fixedStorage scriptedSarama
           (aggregator.plannedMain aggregator.goodPlan) kind_int 3 false true false
           (aggregator.freshProcess aggregator.goodPlan closedSubscription) 2).
  reflexivity.
Defined.

(** The configuration file /etc/aggregator/config.toml. *)
Lemma loadConfiguration_location_witness :
  exists directory file,
    aggregator.viperCalls
      (snd (@aggregator.loadConfiguration fixedStorage scriptedSarama
              (aggregator.plannedMain aggregator.goodPlan) "config"
              (aggregator.freshProcess aggregator.goodPlan testScript)))
    = aggregator.viperCalls (aggregator.freshProcess aggregator.goodPlan testScript)
      ++ [aggregator.SetConfigName file; aggregator.AddConfigPath directory]
    /\ directory +:+ file +:+ aggregator.Ext "/etc/aggregator/config.toml"
       = "/etc/aggregator/config.toml"%string
    /\ aggregator.directoryLike (list_ascii_of_string directory)
    /\ aggregator.separatorFree (list_ascii_of_string file).
Proof.
  apply (@loadConfiguration_location fixedStorage scriptedSarama
           (aggregator.plannedMain aggregator.goodPlan) "config"
           "/etc/aggregator/config.toml"
           (aggregator.freshProcess aggregator.goodPlan testScript)).
  reflexivity.
Defined.

(** The same file: viper looks for config in /etc/aggregator/. *)
Lemma loadConfiguration_name_witness :
  aggregator.viperCalls
    (snd (@aggregator.loadConfiguration fixedStorage scriptedSarama
            (aggregator.plannedMain aggregator.goodPlan) "config"
            (aggregator.freshProcess aggregator.goodPlan testScript)))
  = [aggregator.SetConfigName "config"; aggregator.AddConfigPath "/etc/aggregator/"].
Proof.
  apply (@loadConfiguration_name fixedStorage scriptedSarama
           (aggregator.plannedMain aggregator.goodPlan) "config"
           (aggregator.freshProcess aggregator.goodPlan testScript)
           (list_ascii_of_string "/etc/aggregator/") (list_ascii_of_string "config")
           (list_ascii_of_string "toml")).
  - right. exists (list_ascii_of_string "/etc/aggregator"), "/"%char. split; reflexivity.
  - repeat constructor.
  - repeat constructor; discriminate.
  - reflexivity.
Defined.
